(** * Review dashboard: data preparation and filtering pipeline

    Shallow embedding of [streamlit_app.py]: [clean_data],
    the bucketing part of [add_custom_features], [filter_dataframe] and the
    guarded insight computation of [main].

    Modelling notes.
    - A DataFrame is the list of its rows, in index order.  A raw column, as
      [pd.read_csv] yields it, holds missing values, numbers and text; a
      cleaned column carries the dtype the cleaner gives it ([float64] as
      [option Q], [int64] as [Z], [datetime64] as [option Z], [object] as
      [cell]).
    - Floating point numbers are idealised as exact rationals; [int64] as
      unbounded integers.
    - pandas is taken at its 2.x behaviour: a reduction such as [median] on a
      column that holds text raises [TypeError], and [fillna(inplace=True)]
      on a selected column writes through to the frame.  A raw column is
      taken as [pd.read_csv] types it, numbers with gaps or text with gaps
      ([one_dtype]); on a column that mixes integers with numeric text the
      median of pandas converts the text instead of raising, and the
      properties of the outcome of the cleaner are stated for columns of
      one type.
    - The properties that bound a cleaned integer are stated within the
      range of [int64], those on the average rating do not depend on its
      rounding.
    - Text-to-number, text-to-timestamp and number-to-text conversions are
      parameters of the development. *)

From Stdlib Require Import ZArith QArith Qround List String Ascii Bool Lia Lqa.
Import ListNotations.

(** ** Values and exceptions *)

(** One entry of a raw (or [object]) column. *)
Inductive cell : Type :=
| NA                       (* NaN / None *)
| Num (x : Q)              (* a number *)
| Str (s : string).        (* text *)

Inductive exn : Type :=
| TypeError
| ValueError
| IntCastingNaNError.

Inductive result (A : Type) : Type :=
| Ok (a : A)
| Raise (e : exn).

Arguments Ok {A} a.
Arguments Raise {A} e.

Definition bind {A B : Type} (m : result A) (k : A -> result B) : result B :=
  match m with
  | Ok a => k a
  | Raise e => Raise e
  end.

Notation "x <- m ;; k" := (bind m (fun x => k))
  (at level 61, m at next level, right associativity).

Fixpoint mapM {A B : Type} (f : A -> result B) (l : list A) : result (list B) :=
  match l with
  | [] => Ok []
  | a :: l' => b <- f a ;; bs <- mapM f l' ;; Ok (b :: bs)
  end.

(** ** pandas primitives *)

Module pd.

Definition isna (c : cell) : bool :=
  match c with NA => true | _ => false end.

Definition notna (c : cell) : bool := negb (isna c).

Definition is_str (c : cell) : bool :=
  match c with Str _ => true | _ => false end.

(** [Series.fillna(value)] on a float column; a NaN fill value changes
    nothing. *)
Definition fillna (value : option Q) (x : option Q) : option Q :=
  match x with
  | Some q => Some q
  | None => value
  end.

(** [Series.fillna(value)] on a raw column, numeric fill value. *)
Definition fillna_num (value : option Q) (c : cell) : cell :=
  match c, value with
  | NA, Some q => Num q
  | _, _ => c
  end.

(** [Series.fillna('...')] on an object column. *)
Definition fillna_str (value : string) (c : cell) : cell :=
  match c with
  | NA => Str value
  | _ => c
  end.

(** Conversion of a float to [int]: truncation toward zero (exact for
    values within the range of [int64], which the integers here do not
    bound). *)
Definition trunc (q : Q) : Z := Z.quot (Qnum q) (Z.pos (Qden q)).

(** Sorting of the present values, as [median] needs it. *)
Fixpoint insert_sorted (x : Q) (l : list Q) : list Q :=
  match l with
  | [] => [x]
  | y :: l' => if Qle_bool x y then x :: l else y :: insert_sorted x l'
  end.

Definition sort (l : list Q) : list Q := fold_right insert_sorted [] l.

(** Present values of a float column. *)
Fixpoint present (l : list (option Q)) : list Q :=
  match l with
  | [] => []
  | Some q :: l' => q :: present l'
  | None :: l' => present l'
  end.

(** [nanmedian] on float values: NaN when nothing is present. *)
Definition nanmedian (l : list (option Q)) : option Q :=
  let s := sort (present l) in
  let n := List.length s in
  match n with
  | O => None
  | _ =>
      if Nat.even n
      then Some (Qred ((nth (n / 2 - 1) s 0 + nth (n / 2) s 0) / 2))
      else Some (nth (n / 2) s 0)
  end.

(** The float view of a raw column for a reduction: refused as soon as the
    column holds text. *)
Definition as_float (c : cell) : result (option Q) :=
  match c with
  | NA => Ok None
  | Num q => Ok (Some q)
  | Str _ => Raise TypeError
  end.

(** [Series.median()] on a raw column of one type: a column holding text is
    refused. *)
Definition median (col : list cell) : result (option Q) :=
  xs <- mapM as_float col ;; Ok (nanmedian xs).

(** [Series.mean()] of a float column, as an exact rational: NaN when
    nothing is present. *)
Definition mean (l : list (option Q)) : option Q :=
  match present l with
  | [] => None
  | q :: qs =>
      Some (Qred (fold_left Qplus qs q / inject_Z (Z.of_nat (List.length (q :: qs)))))
  end.

(** [Series.str.lstrip('v')]. *)
Fixpoint lstrip_v (s : string) : string :=
  match s with
  | String "v"%char s' => lstrip_v s'
  | _ => s
  end.

(** [ndarray.searchsorted(x, side='left')]: on sorted bins, the number of
    edges strictly below [x]. *)
Fixpoint searchsorted_left (bins : list Q) (x : Q) : nat :=
  match bins with
  | [] => O
  | b :: bins' =>
      if Qle_bool x b then O else S (searchsorted_left bins' x)
  end.

(** [pd.cut(x, bins, labels, include_lowest=True)] on one entry, with the
    default [right=True]. *)
Definition cut (x : option Q) (bins : list Q) (labels : list string)
  : option string :=
  match x with
  | None => None
  | Some v =>
      let ids := searchsorted_left bins v in
      let ids := match bins with
                 | b0 :: _ => if Qeq_bool v b0 then 1%nat else ids
                 | [] => ids
                 end in
      if (ids =? List.length bins)%nat || (ids =? 0)%nat then None
      else nth_error labels (ids - 1)
  end.

End pd.

(** ** Tables *)

(** A row of the table read from the CSV file. *)
Module Raw.
Record row : Type := mk {
  app_name : cell;
  app_category : cell;
  review_text : cell;
  rating : cell;
  user_age : cell;
  user_country : cell;
  user_gender : cell;
  app_version : cell;
  num_helpful_votes : cell;
  review_date : cell;
  review_language : cell
}.
End Raw.

(** A row of the table [clean_data] returns.  [review_date] is a timestamp
    in nanoseconds since the epoch, [None] being [NaT]. *)
Module Clean.
Record row : Type := mk {
  app_name : cell;
  app_category : cell;
  review_text : cell;
  rating : option Q;
  user_age : Z;
  user_country : cell;
  user_gender : cell;
  app_version : string;
  num_helpful_votes : Z;
  review_date : option Z;
  review_language : cell
}.
End Clean.

(** A row of the table [add_custom_features] returns: the cleaned columns
    and the two bucket columns.  The text and calendar columns derived at
    the same place are not carried. *)
Module Enriched.
Record row : Type := mk {
  base : Clean.row;
  rating_category : option string;
  age_group : option string
}.

Definition app_name (r : row) : cell := Clean.app_name (base r).
Definition app_category (r : row) : cell := Clean.app_category (base r).
Definition rating (r : row) : option Q := Clean.rating (base r).
Definition user_age (r : row) : Z := Clean.user_age (base r).
Definition review_date (r : row) : option Z := Clean.review_date (base r).
End Enriched.

Definition ns_per_day : Z := 86400000000000.

(** [Timestamp.date()], as the ordinal of the day since the epoch. *)
Definition dt_date (ts : Z) : Z := ts / ns_per_day.

(** ** Sample conversions, for concrete tables *)

Module Sample.

Definition digit (c : ascii) : option Z :=
  let n := Z.of_nat (nat_of_ascii c) in
  if (48 <=? n)%Z && (n <=? 57)%Z then Some (n - 48)%Z else None.

Fixpoint read_digits (s : string) (acc : Z) : option Z :=
  match s with
  | EmptyString => Some acc
  | String c s' =>
      match digit c with
      | Some d => read_digits s' (10 * acc + d)%Z
      | None => None
      end
  end.

Fixpoint split_at (sep : ascii) (s : string) : string * option string :=
  match s with
  | EmptyString => (EmptyString, None)
  | String c s' =>
      if Ascii.eqb c sep then (EmptyString, Some s')
      else let (a, b) := split_at sep s' in (String c a, b)
  end.

Definition read_number (s : string) : option Z :=
  match s with
  | EmptyString => None
  | _ => read_digits s 0
  end.

(** Plain decimal numerals: an optional sign, digits, an optional
    fraction. *)
Definition to_float (s : string) : option Q :=
  let (neg, body) :=
    match s with
    | String "-"%char s' => (true, s')
    | _ => (false, s)
    end in
  let (ip, fp) := split_at "."%char body in
  let signed (q : Q) := if neg then Qred (- q) else Qred q in
  match read_number ip, fp with
  | Some i, None => Some (signed (inject_Z i))
  | Some i, Some f =>
      match read_number f with
      | Some n =>
          Some (signed (inject_Z i
                        + inject_Z n / inject_Z (10 ^ Z.of_nat (String.length f))))
      | None => None
      end
  | None, _ => None
  end.

(** Days since the epoch of a proleptic Gregorian date. *)
Definition days_from_civil (y m d : Z) : Z :=
  let y' := if (m <=? 2)%Z then (y - 1)%Z else y in
  let era := (y' / 400)%Z in
  let yoe := (y' - era * 400)%Z in
  let mp := if (m >? 2)%Z then (m - 3)%Z else (m + 9)%Z in
  let doy := ((153 * mp + 2) / 5 + d - 1)%Z in
  let doe := (yoe * 365 + yoe / 4 - yoe / 100 + doy)%Z in
  (era * 146097 + doe - 719468)%Z.

(** Dates written [YYYY-MM-DD]; anything else is not a date. *)
Definition to_timestamp (_ : list cell) (c : cell) : option Z :=
  match c with
  | Str s =>
      let (ys, rest) := split_at "-"%char s in
      match rest with
      | Some rest =>
          let (ms, ds) := split_at "-"%char rest in
          match read_number ys, read_number ms, ds with
          | Some y, Some m, Some ds =>
              match read_number ds with
              | Some d =>
                  if (1 <=? m)%Z && (m <=? 12)%Z && (1 <=? d)%Z && (d <=? 31)%Z
                  then Some (days_from_civil y m d * ns_per_day)%Z
                  else None
              | None => None
              end
          | _, _, _ => None
          end
      | None => None
      end
  | _ => None
  end.

Fixpoint nat_digits (fuel : nat) (n : Z) (acc : string) : string :=
  match fuel with
  | O => acc
  | S fuel' =>
      let acc' := String (ascii_of_nat (Z.to_nat (48 + n mod 10))) acc in
      if (n <? 10)%Z then acc' else nat_digits fuel' (n / 10)%Z acc'
  end.

Definition Z_repr (z : Z) : string :=
  let body := nat_digits 64 (Z.abs z) EmptyString in
  if (z <? 0)%Z then String "-"%char body else body.

Fixpoint frac_digits (fuel : nat) (num den : Z) : string :=
  match fuel with
  | O => EmptyString
  | S fuel' =>
      let d := (10 * num / den)%Z in
      let r := (10 * num mod den)%Z in
      String (ascii_of_nat (Z.to_nat (48 + d)))
             (if (r =? 0)%Z then EmptyString else frac_digits fuel' r den)
  end.

(** A number as text: integer part, point, fraction digits. *)
Definition float_repr (q : Q) : string :=
  let n := Qnum q in
  let d := Z.pos (Qden q) in
  let ip := Z.quot n d in
  let fr := (Z.abs n mod d)%Z in
  ((if (n <? 0)%Z && (ip =? 0)%Z then "-" else "")
     ++ Z_repr ip ++ "." ++ frac_digits 17 fr d)%string.

End Sample.

(** ** The pipeline *)

Section Pipeline.

(** [pd.to_numeric] on a text entry; [None] when the text is no number. *)
Variable to_float : string -> option Q.

(** [pd.to_datetime] on a present entry of a column (the column is given
    because the expected format is guessed from it); [None] when the
    entry is no date. *)
Variable to_timestamp : list cell -> cell -> option Z.

(** [str] of a number. *)
Variable float_repr : Q -> string.

(** *** Cleaner *)

(** [pd.to_numeric(..., errors='coerce')] on one entry. *)
Definition to_numeric (c : cell) : option Q :=
  match c with
  | NA => None
  | Num q => Some q
  | Str s => to_float s
  end.

(** [pd.to_datetime(..., errors='coerce')] on one entry of column [col]. *)
Definition to_datetime (col : list cell) (c : cell) : option Z :=
  match c with
  | NA => None
  | _ => to_timestamp col c
  end.

(** [Series.astype(str)] on one entry. *)
Definition astype_str (c : cell) : string :=
  match c with
  | NA => "nan"
  | Num q => float_repr q
  | Str s => s
  end.

(** [Series.astype(int)] on one entry of the [user_age] column.  The text
    case is never reached: [median] has refused such a column before. *)
Definition astype_int_cell (c : cell) : result Z :=
  match c with
  | NA => Raise IntCastingNaNError
  | Num q => Ok (pd.trunc q)
  | Str _ => Raise ValueError
  end.

(** [df.dropna(subset=['review_text'])]. *)
Definition dropna_review_text (df : list Raw.row) : list Raw.row :=
  filter (fun r => pd.notna (Raw.review_text r)) df.

Definition clean_row (rating_median user_age_median : option Q)
           (dates : list cell) (r : Raw.row) : result Clean.row :=
  age <- astype_int_cell (pd.fillna_num user_age_median (Raw.user_age r)) ;;
  Ok {| Clean.app_name := Raw.app_name r;
        Clean.app_category := Raw.app_category r;
        Clean.review_text := Raw.review_text r;
        Clean.rating := pd.fillna rating_median (to_numeric (Raw.rating r));
        Clean.user_age := age;
        Clean.user_country := pd.fillna_str "Unknown" (Raw.user_country r);
        Clean.user_gender := pd.fillna_str "Unknown" (Raw.user_gender r);
        Clean.app_version :=
          pd.lstrip_v (astype_str (pd.fillna_str "Unknown" (Raw.app_version r)));
        Clean.num_helpful_votes :=
          match pd.fillna (Some 0) (to_numeric (Raw.num_helpful_votes r)) with
          | Some q => pd.trunc q
          | None => 0%Z
          end;
        Clean.review_date := to_datetime dates (Raw.review_date r);
        Clean.review_language := Raw.review_language r |}.

(** [clean_data].  Both medians are taken on the columns as they are after
    the rows without text are dropped, before any conversion. *)
Definition clean_data (df : list Raw.row) : result (list Clean.row) :=
  let df_clean := dropna_review_text df in
  rating_median <- pd.median (map Raw.rating df_clean) ;;
  user_age_median <- pd.median (map Raw.user_age df_clean) ;;
  mapM (clean_row rating_median user_age_median
                  (map Raw.review_date df_clean)) df_clean.

(** *** Feature enricher *)

Definition rating_bins : list Q := [0; 1.9; 2.9; 3.9; 4.4; 5].
Definition rating_labels : list string :=
  ["Very Poor"; "Poor"; "Average"; "Good"; "Excellent"]%string.

Definition age_bins : list Q := [0; 17; 24; 34; 49; 100].
Definition age_labels : list string :=
  ["Teen"; "Young Adult"; "Adult"; "Middle Age"; "Senior"]%string.

Definition enrich_row (r : Clean.row) : Enriched.row :=
  {| Enriched.base := r;
     Enriched.rating_category :=
       pd.cut (Clean.rating r) rating_bins rating_labels;
     Enriched.age_group :=
       pd.cut (Some (inject_Z (Clean.user_age r))) age_bins age_labels |}.

Definition add_custom_features (df : list Clean.row) : list Enriched.row :=
  map enrich_row df.

(** [load_and_process_data], after the download. *)
Definition load_and_process_data (df : list Raw.row)
  : result (list Enriched.row) :=
  df_clean <- clean_data df ;; Ok (add_custom_features df_clean).

(** *** Filter engine *)

(** [column == text] on one entry. *)
Definition eq_str (c : cell) (s : string) : bool :=
  match c with
  | Str s' => String.eqb s' s
  | _ => false
  end.

(** [column >= x] and [column <= x] on one entry of a float column; a
    comparison with NaN is false. *)
Definition ge (x : option Q) (y : Q) : bool :=
  match x with Some q => Qle_bool y q | None => false end.

Definition le (x : option Q) (y : Q) : bool :=
  match x with Some q => Qle_bool q y | None => false end.

(** [column.dt.date >= d] and [column.dt.date <= d] on one entry; a
    comparison with NaT is false. *)
Definition date_ge (x : option Z) (d : Z) : bool :=
  match x with Some ts => (d <=? dt_date ts)%Z | None => false end.

Definition date_le (x : option Z) (d : Z) : bool :=
  match x with Some ts => (dt_date ts <=? d)%Z | None => false end.

Definition filter_dataframe (df : list Enriched.row) (app category : string)
           (rating_range : Q * Q) (date_range : list Z) : list Enriched.row :=
  let filtered_df := df in
  let filtered_df :=
    if negb (String.eqb app "All")
    then filter (fun r => eq_str (Enriched.app_name r) app) filtered_df
    else filtered_df in
  let filtered_df :=
    if negb (String.eqb category "All")
    then filter (fun r => eq_str (Enriched.app_category r) category) filtered_df
    else filtered_df in
  let filtered_df :=
    filter (fun r => ge (Enriched.rating r) (fst rating_range)
                     && le (Enriched.rating r) (snd rating_range))
           filtered_df in
  match date_range with
  | [start_date; end_date] =>
      filter (fun r => date_ge (Enriched.review_date r) start_date
                       && date_le (Enriched.review_date r) end_date)
             filtered_df
  | _ => filtered_df
  end.

End Pipeline.

(** *** Sidebar *)

(** The filter settings the sidebar hands to [filter_dataframe]. *)
Record criteria : Type := mk_criteria {
  app : string;
  category : string;
  rating_range : Q * Q;
  date_range : list Z
}.

Definition apply_criteria (df : list Enriched.row) (c : criteria)
  : list Enriched.row :=
  filter_dataframe df (app c) (category c) (rating_range c) (date_range c).

(** [Series.min()] and [Series.max()] of a datetime column, [NaT] skipped. *)
Fixpoint series_min (l : list (option Z)) : option Z :=
  match l with
  | [] => None
  | None :: l' => series_min l'
  | Some t :: l' =>
      match series_min l' with
      | Some m => Some (Z.min t m)
      | None => Some t
      end
  end.

Fixpoint series_max (l : list (option Z)) : option Z :=
  match l with
  | [] => None
  | None :: l' => series_max l'
  | Some t :: l' =>
      match series_max l' with
      | Some m => Some (Z.max t m)
      | None => Some t
      end
  end.

(** The full range of the rating slider. *)
Definition slider_range : Q * Q := (1.0, 5.0).

(** The initial value of the date input: first and last day of the table.
    There is none when the table has no date at all. *)
Definition full_date_range (df : list Enriched.row) : option (list Z) :=
  let dates := map Enriched.review_date df in
  match series_min dates, series_max dates with
  | Some a, Some b => Some [dt_date a; dt_date b]
  | _, _ => None
  end.

(** The settings of an untouched sidebar, for a date input showing [dr]. *)
Definition unrestricted (dr : list Z) : criteria :=
  {| app := "All"; category := "All";
     rating_range := slider_range; date_range := dr |}.

(** One sidebar control set to a value. *)
Inductive constraint : Type :=
| ByApp (a : string)
| ByCategory (c : string)
| ByRating (lo hi : Q)
| ByDate (start_date end_date : Z).



Definition set_control (k : constraint) (c : criteria) : criteria :=
  match k with
  | ByApp a => mk_criteria a (category c) (rating_range c) (date_range c)
  | ByCategory g => mk_criteria (app c) g (rating_range c) (date_range c)
  | ByRating lo hi => mk_criteria (app c) (category c) (lo, hi) (date_range c)
  | ByDate s e => mk_criteria (app c) (category c) (rating_range c) [s; e]
  end.


(** The row condition the settings stand for: every constraint that is
    present holds. *)
Definition satisfies (c : criteria) (r : Enriched.row) : Prop :=
  (app c = "All"%string \/ Enriched.app_name r = Str (app c)) /\
  (category c = "All"%string \/ Enriched.app_category r = Str (category c)) /\
  (exists q, Enriched.rating r = Some q /\
             fst (rating_range c) <= q /\ q <= snd (rating_range c)) /\
  (forall s e, date_range c = [s; e] ->
     exists ts, Enriched.review_date r = Some ts /\
                (s <= dt_date ts <= e)%Z).

(** *** Reporter *)

(** Equality and order of group keys; numbers sort before text. *)
Definition cell_eqb (a b : cell) : bool :=
  match a, b with
  | Num x, Num y => Qeq_bool x y
  | Str s, Str t => String.eqb s t
  | _, _ => false
  end.

Definition cell_leb (a b : cell) : bool :=
  match a, b with
  | Num x, Num y => Qle_bool x y
  | Num _, Str _ => true
  | Str s, Str t => String.leb s t
  | _, _ => false
  end.

Fixpoint insert_key (k : cell) (ks : list cell) : list cell :=
  match ks with
  | [] => [k]
  | k' :: ks' =>
      if cell_eqb k k' then ks
      else if cell_leb k k' then k :: ks
      else k' :: insert_key k ks'
  end.

(** The group keys of a column: its distinct present values, sorted. *)
Definition group_keys (col : list cell) : list cell :=
  fold_left (fun ks k => if pd.isna k then ks else insert_key k ks) col [].

(** [df.groupby('app_category')['rating'].mean()]. *)
Definition category_means (df : list Enriched.row) : list (cell * option Q) :=
  map (fun k =>
         (k, pd.mean (map Enriched.rating
                          (filter (fun r => cell_eqb (Enriched.app_category r) k) df))))
      (group_keys (map Enriched.app_category df)).

(** The label of the first best present value of a series. *)
Fixpoint arg_best (better : Q -> Q -> bool) (s : list (cell * option Q))
         (best : option (cell * Q)) : option (cell * Q) :=
  match s with
  | [] => best
  | (_, None) :: s' => arg_best better s' best
  | (k, Some v) :: s' =>
      match best with
      | None => arg_best better s' (Some (k, v))
      | Some (_, b) =>
          if better v b then arg_best better s' (Some (k, v))
          else arg_best better s' best
      end
  end.

Definition idx_best (better : Q -> Q -> bool) (s : list (cell * option Q))
  : result cell :=
  match s with
  | [] => Raise ValueError
  | _ =>
      match arg_best better s None with
      | Some (k, _) => Ok k
      | None => Ok NA
      end
  end.

(** [Series.idxmax()] and [Series.idxmin()]: [ValueError] on an empty
    series. *)
Definition idxmax : list (cell * option Q) -> result cell :=
  idx_best (fun v b => negb (Qle_bool v b)).

Definition idxmin : list (cell * option Q) -> result cell :=
  idx_best (fun v b => negb (Qle_bool b v)).

Record insights : Type := mk_insights {
  total_reviews : nat;
  avg_rating : option Q;
  best_category : cell;
  worst_category : cell
}.

Inductive page : Type :=
| NoData                       (* the warning, nothing else rendered *)
| Dashboard (i : insights).

(** [main], from the filtering on: metrics and insights of the view. *)
Definition main (df : list Enriched.row) (c : criteria) : result page :=
  let filtered_df := apply_criteria df c in
  match filtered_df with
  | [] => Ok NoData
  | _ =>
      let avg := pd.mean (map Enriched.rating filtered_df) in
      best <- idxmax (category_means filtered_df) ;;
      worst <- idxmin (category_means filtered_df) ;;
      Ok (Dashboard (mk_insights (List.length filtered_df) avg best worst))
  end.

(** The masks of the four steps of [filter_dataframe], and the mask they
    amount to together. *)
Definition app_mask (a : string) (r : Enriched.row) : bool :=
  String.eqb a "All" || eq_str (Enriched.app_name r) a.

Definition category_mask (g : string) (r : Enriched.row) : bool :=
  String.eqb g "All" || eq_str (Enriched.app_category r) g.

Definition rating_mask (rr : Q * Q) (r : Enriched.row) : bool :=
  ge (Enriched.rating r) (fst rr) && le (Enriched.rating r) (snd rr).

Definition date_mask (dr : list Z) (r : Enriched.row) : bool :=
  match dr with
  | [s; e] => date_ge (Enriched.review_date r) s
              && date_le (Enriched.review_date r) e
  | _ => true
  end.

Definition selects (c : criteria) (r : Enriched.row) : bool :=
  app_mask (app c) r && category_mask (category c) r
  && rating_mask (rating_range c) r && date_mask (date_range c) r.

(** Missing-value tests at the dtypes of the cleaned columns; an integer or
    text column has no missing value. *)
Definition isna_float (x : option Q) : bool :=
  match x with None => true | Some _ => false end.

Definition isna_int (_ : Z) : bool := false.

Definition isna_text (_ : string) : bool := false.

(** [l1] is [l2] with some elements left out. *)
Inductive Subseq {A : Type} : list A -> list A -> Prop :=
| Subseq_nil : Subseq [] []
| Subseq_skip : forall x l1 l2, Subseq l1 l2 -> Subseq l1 (x :: l2)
| Subseq_keep : forall x l1 l2, Subseq l1 l2 -> Subseq (x :: l1) (x :: l2).

(** [Series.nunique()]: the number of distinct present values. *)
Definition nunique (col : list cell) : nat := List.length (group_keys col).

(** The four figures of the key metrics row of [main]. *)
Record key_metrics : Type := mk_key_metrics {
  metric_total_reviews : nat;
  metric_average_rating : option Q;
  metric_unique_apps : nat;
  metric_languages : nat
}.

Definition key_metrics_of (filtered_df : list Enriched.row) : key_metrics :=
  {| metric_total_reviews := List.length filtered_df;
     metric_average_rating := pd.mean (map Enriched.rating filtered_df);
     metric_unique_apps := nunique (map Enriched.app_name filtered_df);
     metric_languages :=
       nunique (map (fun r => Clean.review_language (Enriched.base r))
                    filtered_df) |}.





(** ** Concrete tables *)

Module Tables.

(** A review with the columns that matter set, the others fixed. *)
Definition review (text rating age version date : cell) : Raw.row :=
  {| Raw.app_name := Str "Maps";
     Raw.app_category := Str "Travel";
     Raw.review_text := text;
     Raw.rating := rating;
     Raw.user_age := age;
     Raw.user_country := NA;
     Raw.user_gender := Str "F";
     Raw.app_version := version;
     Raw.num_helpful_votes := Str "many";
     Raw.review_date := date;
     Raw.review_language := Str "en" |}.

Definition clean_data := clean_data Sample.to_float Sample.to_timestamp
                                    Sample.float_repr.

Definition load_and_process_data :=
  load_and_process_data Sample.to_float Sample.to_timestamp
                        Sample.float_repr.

(** Ratings read as text, one of them not a number. *)
Definition text_ratings : list Raw.row :=
  [ review (Str "fine") (Str "4.5") (Num 30) (Str "v2.1") (Str "2025-08-01");
    review (Str "slow") (Str "abc") (Num 41) (Str "1.0") (Str "2025-08-02") ].

(** The two-row table with a rating given as text and a missing one. *)
Definition text_and_missing_rating : list Raw.row :=
  [ review (Str "fine") (Str "4.5") NA (Str "v2.1") (Str "2025-08-01");
    review (Str "slow") NA (Num 30) (Str "1.0") (Str "2025-08-02") ].

(** The same two rows with the rating given as a number. *)
Definition number_and_missing_rating : list Raw.row :=
  [ review (Str "fine") (Num 4.5) NA (Str "v2.1") (Str "2025-08-01");
    review (Str "slow") NA (Num 30) (Str "1.0") (Str "2025-08-02") ].

(** An age that is no number. *)
Definition text_age : list Raw.row :=
  [ review (Str "fine") (Num 4.5) (Str "thirty") (Str "v2.1") (Str "2025-08-01");
    review (Str "slow") (Num 3) (Str "30") (Str "1.0") (Str "2025-08-02") ].

(** A review whose text is the empty string, after one without text. *)
Definition empty_text : list Raw.row :=
  [ review NA (Num 2) (Num 19) (Str "1.0") (Str "2025-08-01");
    review (Str "") (Num 4) (Num 30) (Str "v2.1") (Str "2025-08-02") ].

(** No rating anywhere. *)
Definition no_rating : list Raw.row :=
  [ review (Str "fine") NA (Num 30) (Str "v2.1") (Str "2025-08-01") ].

(** A reviewer aged 101. *)
Definition centenarian : list Raw.row :=
  [ review (Str "fine") (Num 4.4) (Num 101) (Str "v2.1") (Str "2025-08-01") ].

(** A dated review and one whose date cannot be read. *)
Definition one_unknown_date : list Raw.row :=
  [ review (Str "fine") (Num 4.4) (Num 30) (Str "v2.1") (Str "2025-08-01");
    review (Str "slow") (Num 3) (Num 41) (Str "1.0") (Str "last week") ].

(** Three dated reviews of two apps. *)
Definition three_reviews : list Raw.row :=
  [ review (Str "fine") (Num 4.4) (Num 30) (Str "v2.1") (Str "2025-08-01");
    {| Raw.app_name := Str "Chess";
       Raw.app_category := Str "Games";
       Raw.review_text := Str "good fun";
       Raw.rating := Num 5;
       Raw.user_age := Num 17;
       Raw.user_country := Str "FR";
       Raw.user_gender := NA;
       Raw.app_version := Num 3;
       Raw.num_helpful_votes := Num 7;
       Raw.review_date := Str "2025-08-03";
       Raw.review_language := Str "fr" |};
    review (Str "slow") (Num 2.5) (Num 41) (Str "1.0") (Str "2025-08-02") ].

(** A cleaned review rated 4.4 by a reviewer aged 30. *)
Definition good_review : Clean.row :=
  {| Clean.app_name := Str "Maps";
     Clean.app_category := Str "Travel";
     Clean.review_text := Str "fine";
     Clean.rating := Some 4.4;
     Clean.user_age := 30;
     Clean.user_country := Str "Unknown";
     Clean.user_gender := Str "F";
     Clean.app_version := "2.1";
     Clean.num_helpful_votes := 0;
     Clean.review_date := Some 1754006400000000000%Z;
     Clean.review_language := Str "en" |}.


(** A cleaned review whose date could not be read. *)
Definition undated_review : Clean.row :=
  {| Clean.app_name := Str "Maps";
     Clean.app_category := Str "Travel";
     Clean.review_text := Str "slow";
     Clean.rating := Some 3;
     Clean.user_age := 41;
     Clean.user_country := Str "Unknown";
     Clean.user_gender := Str "F";
     Clean.app_version := "1.0";
     Clean.num_helpful_votes := 0;
     Clean.review_date := None;
     Clean.review_language := Str "en" |}.

Definition enriched (df : list Raw.row) : list Enriched.row :=
  match load_and_process_data df with
  | Ok df' => df'
  | Raise _ => []
  end.

Definition day (y m d : Z) : Z := Sample.days_from_civil y m d.

End Tables.

(** * Properties *)

(** ** Error monad and reductions *)

Lemma bind_Ok_inv (A B : Type) (m : result A) (k : A -> result B) (b : B) :
  bind m k = Ok b -> exists a, m = Ok a /\ k a = Ok b.
Proof.
  destruct m as [a | e]; simpl; intros H; [ | discriminate H ].
  exists a; split; [ reflexivity | exact H ].
Qed.

Lemma mapM_Ok_Forall2 (A B : Type) (f : A -> result B) (l : list A) :
  forall out, mapM f l = Ok out -> Forall2 (fun a b => f a = Ok b) l out.
Proof.
  induction l as [ | a l IH ]; simpl; intros out H.
  - injection H as <-. constructor.
  - apply bind_Ok_inv in H as (b & Hb & H).
    apply bind_Ok_inv in H as (bs & Hbs & H).
    injection H as <-.
    constructor; [ exact Hb | apply IH, Hbs ].
Qed.

Lemma Forall2_map_eq (A B C : Type) (R : A -> B -> Prop)
      (f : A -> C) (g : B -> C) (l : list A) (l' : list B) :
  (forall a b, R a b -> g b = f a) ->
  Forall2 R l l' -> map g l' = map f l.
Proof.
  intros Hfg H; induction H as [ | a b l l' Hab _ IH ]; simpl.
  - reflexivity.
  - rewrite (Hfg _ _ Hab), IH; reflexivity.
Qed.

Lemma Forall2_Forall_r (A B : Type) (R : A -> B -> Prop) (P : A -> Prop)
      (Q : B -> Prop) (l : list A) (l' : list B) :
  (forall a b, P a -> R a b -> Q b) ->
  Forall P l -> Forall2 R l l' -> Forall Q l'.
Proof.
  intros HPQ HP H; induction H as [ | a b l l' Hab _ IH ]; constructor.
  - inversion HP; subst; eauto.
  - apply IH; inversion HP; assumption.
Qed.

Lemma insert_sorted_length (x : Q) (l : list Q) :
  List.length (pd.insert_sorted x l) = S (List.length l).
Proof.
  induction l as [ | y l IH ]; simpl; [ reflexivity | ].
  destruct (Qle_bool x y); simpl; [ reflexivity | now rewrite IH ].
Qed.

Lemma sort_length (l : list Q) : List.length (pd.sort l) = List.length l.
Proof.
  induction l as [ | x l IH ]; simpl; [ reflexivity | ].
  unfold pd.sort in *; simpl. now rewrite insert_sorted_length, IH.
Qed.

Lemma nanmedian_None_iff (xs : list (option Q)) :
  pd.nanmedian xs = None <-> pd.present xs = [].
Proof.
  unfold pd.nanmedian.
  pose proof (sort_length (pd.present xs)) as Hlen.
  destruct (pd.present xs) as [ | q qs ] eqn:Hp.
  - simpl. split; reflexivity.
  - destruct (List.length (pd.sort (q :: qs))) as [ | n ] eqn:Hn;
      [ simpl in Hlen; discriminate Hlen | ].
    split; [ | discriminate ].
    destruct (Nat.even (S n)); discriminate.
Qed.

(** A column on which [median] works holds no text, and its median is NaN
    exactly when every entry is missing. *)
Lemma median_Ok_inv (col : list cell) (m : option Q) :
  pd.median col = Ok m ->
  Forall (fun c => pd.is_str c = false) col /\
  (m = None <-> Forall (fun c => c = NA) col).
Proof.
  unfold pd.median; intros H.
  apply bind_Ok_inv in H as (xs & Hxs & H). injection H as <-.
  apply mapM_Ok_Forall2 in Hxs.
  rewrite nanmedian_None_iff.
  induction Hxs as [ | c x col xs Hc _ IH ].
  - split; [ constructor | split; intros; [ constructor | reflexivity ] ].
  - destruct IH as (IH1 & IH2).
    destruct c as [ | q | s ]; simpl in Hc; try discriminate Hc;
      injection Hc as <-; simpl.
    + split; [ constructor; [ reflexivity | exact IH1 ] | ].
      rewrite IH2. split; intros Hall.
      * constructor; [ reflexivity | exact Hall ].
      * inversion Hall; assumption.
    + split; [ constructor; [ reflexivity | exact IH1 ] | ].
      split; [ discriminate | ].
      intros Hall; inversion Hall; discriminate.
Qed.

(** A column that holds text makes [median] raise. *)
Lemma median_text_raises (col : list cell) :
  Exists (fun c => pd.is_str c = true) col -> pd.median col = Raise TypeError.
Proof.
  unfold pd.median; intros H.
  assert (Hm : mapM pd.as_float col = Raise TypeError).
  { induction H as [ c col Hc | c col _ IH ].
    - destruct c; try discriminate Hc. reflexivity.
    - simpl. destruct c as [ | q | s ]; simpl; try reflexivity;
        rewrite IH; reflexivity. }
  rewrite Hm; reflexivity.
Qed.

(** ** Cleaner *)

Section CleanerFacts.

Variable to_float : string -> option Q.
Variable to_timestamp : list cell -> cell -> option Z.
Variable float_repr : Q -> string.

Local Abbreviation cleaner :=
  (clean_data to_float to_timestamp float_repr).
Local Abbreviation row_cleaner :=
  (clean_row to_float to_timestamp float_repr).

(** What a successful [clean_row] has built. *)
Lemma clean_row_Ok_inv rm am dates (r : Raw.row) (b : Clean.row) :
  row_cleaner rm am dates r = Ok b ->
  Clean.review_text b = Raw.review_text r /\
  Clean.rating b = pd.fillna rm (to_numeric to_float (Raw.rating r)) /\
  Clean.user_country b = pd.fillna_str "Unknown" (Raw.user_country r) /\
  Clean.user_gender b = pd.fillna_str "Unknown" (Raw.user_gender r) /\
  Clean.review_date b = to_datetime to_timestamp dates (Raw.review_date r).
Proof.
  unfold clean_row; intros H.
  apply bind_Ok_inv in H as (age & _ & H).
  injection H as <-; simpl. repeat split; reflexivity.
Qed.

(** What a successful [clean_data] has gone through. *)
Lemma clean_data_Ok_inv (df : list Raw.row) (out : list Clean.row) :
  cleaner df = Ok out ->
  exists rm am,
    pd.median (map Raw.rating (dropna_review_text df)) = Ok rm /\
    pd.median (map Raw.user_age (dropna_review_text df)) = Ok am /\
    Forall2 (fun r b =>
               row_cleaner rm am
                         (map Raw.review_date (dropna_review_text df)) r
               = Ok b)
            (dropna_review_text df) out.
Proof.
  unfold clean_data; intros H.
  apply bind_Ok_inv in H as (rm & Hrm & H).
  apply bind_Ok_inv in H as (am & Ham & H).
  exists rm, am. repeat split; try assumption.
  apply mapM_Ok_Forall2, H.
Qed.

Lemma dropna_review_text_column (df : list Raw.row) :
  map Raw.review_text (dropna_review_text df)
  = filter pd.notna (map Raw.review_text df).
Proof.
  unfold dropna_review_text.
  induction df as [ | r df IH ]; simpl; [ reflexivity | ].
  destruct (pd.notna (Raw.review_text r)); simpl; now rewrite IH.
Qed.

(** The cleaner stops on a table whose surviving ratings hold text. *)
Lemma clean_data_text_rating (df : list Raw.row) :
  Exists (fun r => pd.is_str (Raw.rating r) = true) (dropna_review_text df) ->
  cleaner df = Raise TypeError.
Proof.
  intros H. unfold clean_data.
  rewrite median_text_raises; [ reflexivity | ].
  apply Exists_exists in H as (r & Hin & Hr).
  apply Exists_exists. exists (Raw.rating r); split; [ | exact Hr ].
  apply in_map, Hin.
Qed.

(** On success the rating column is the coerced input column with its
    gaps filled by the median of the input column; no text was in it. *)
Lemma clean_data_rating_column (df : list Raw.row) (out : list Clean.row) :
  cleaner df = Ok out ->
  exists m,
    pd.median (map Raw.rating (dropna_review_text df)) = Ok m /\
    map Clean.rating out
    = map (fun r => pd.fillna m (to_numeric to_float (Raw.rating r)))
          (dropna_review_text df).
Proof.
  intros H. apply clean_data_Ok_inv in H as (rm & am & Hrm & _ & H).
  exists rm. split; [ exact Hrm | ].
  eapply Forall2_map_eq; [ | exact H ].
  intros a b Hab. apply clean_row_Ok_inv in Hab. apply Hab.
Qed.




End CleanerFacts.

(** C1: on the table whose two reviews carry the ratings "4.5" and "abc" as
    text, the cleaner does not coerce "abc" to missing and fill it with the
    median 4.5: it stops with TypeError, because the median is asked of the
    rating column before its conversion. *)
Theorem clean_data_rating_median_before_coercion :
  Tables.clean_data Tables.text_ratings = Raise TypeError.
Proof. reflexivity. Qed.

(** The same happens on the table with the ratings "4.5" (text) and
    missing; with the rating 4.5 held as a number the missing rating
    becomes 4.5. *)
Lemma clean_data_text_and_missing_rating :
  Tables.clean_data Tables.text_and_missing_rating = Raise TypeError /\
  match Tables.clean_data Tables.number_and_missing_rating with
  | Ok out => map Clean.rating out = [Some 4.5; Some 4.5] /\
              map Clean.user_age out = [30%Z; 30%Z] /\
              map Clean.app_version out = ["2.1"; "1.0"]%string
  | Raise _ => False
  end.
Proof. split; [ reflexivity | vm_compute; repeat split ]. Qed.

(** C2: on a table with the required columns whose user_age column holds
    the text "thirty", the cleaner raises TypeError instead of recovering
    locally: user_age is never coerced, and its median is refused. *)
Theorem clean_data_raises_on_text_age :
  Tables.clean_data Tables.text_age = Raise TypeError.
Proof. reflexivity. Qed.

(** C3, as stated, fails: a review whose text is the empty string is kept
    by the cleaner. *)
Lemma clean_data_keeps_empty_text :
  exists r, Tables.clean_data Tables.empty_text = Ok [r] /\
            Clean.review_text r = Str "".
Proof. eexists; split; reflexivity. Qed.

(** C3, amended: whenever the cleaner returns a table, every row of it has
    a present review_text, and its review_text column is that of the input
    without the missing entries, in order; text that is present, the empty
    string included, is kept. *)
Theorem clean_data_review_text_present to_float to_timestamp float_repr
        (df : list Raw.row) (out : list Clean.row) :
  clean_data to_float to_timestamp float_repr df = Ok out ->
  Forall (fun r => Clean.review_text r <> NA) out /\
  map Clean.review_text out = filter pd.notna (map Raw.review_text df).
Proof.
  intros H. apply clean_data_Ok_inv in H as (rm & am & _ & _ & H).
  assert (Hcol : map Clean.review_text out
                 = map Raw.review_text (dropna_review_text df)).
  { eapply Forall2_map_eq; [ | exact H ].
    intros a b Hab. apply clean_row_Ok_inv in Hab. apply Hab. }
  split.
  - apply Forall2_Forall_r
      with (P := fun r => pd.notna (Raw.review_text r) = true) (3 := H).
    + intros a b Ha Hab. apply clean_row_Ok_inv in Hab as (-> & _).
      destruct (Raw.review_text a); [ discriminate Ha | discriminate .. ].
    + apply Forall_forall. intros r Hr.
      apply filter_In in Hr as (_ & Hr). exact Hr.
  - rewrite Hcol. apply dropna_review_text_column.
Qed.

Lemma clean_data_review_text_present_witness :
  exists out,
    Tables.clean_data Tables.empty_text = Ok out /\
    Forall (fun r => Clean.review_text r <> NA) out /\
    map Clean.review_text out
    = filter pd.notna (map Raw.review_text Tables.empty_text).
Proof.
  eexists. split; [ reflexivity | ].
  apply (clean_data_review_text_present
           Sample.to_float Sample.to_timestamp Sample.float_repr
           Tables.empty_text).
  reflexivity.
Defined.

(** C4, as stated, fails: when no surviving row has a rating, the median is
    NaN, nothing is filled and the rating stays missing. *)
Lemma clean_data_leaves_rating_missing :
  exists r, Tables.clean_data Tables.no_rating = Ok [r] /\
            isna_float (Clean.rating r) = true.
Proof. eexists; split; reflexivity. Qed.

(** C4, amended: whenever the cleaner returns a table, no row of it has a
    missing user_age, num_helpful_votes, user_country, user_gender or
    app_version; no row has a missing rating provided some surviving row of
    the input has a rating; when no surviving row has one, every rating of
    the output is missing. *)
Theorem clean_data_missing_values to_float to_timestamp float_repr
        (df : list Raw.row) (out : list Clean.row) :
  clean_data to_float to_timestamp float_repr df = Ok out ->
  Forall (fun r => isna_int (Clean.user_age r) = false /\
                   isna_int (Clean.num_helpful_votes r) = false /\
                   pd.isna (Clean.user_country r) = false /\
                   pd.isna (Clean.user_gender r) = false /\
                   isna_text (Clean.app_version r) = false) out /\
  (Exists (fun r => pd.notna (Raw.rating r) = true) (dropna_review_text df) ->
   Forall (fun r => isna_float (Clean.rating r) = false) out) /\
  (Forall (fun r => Raw.rating r = NA) (dropna_review_text df) ->
   Forall (fun r => isna_float (Clean.rating r) = true) out).
Proof.
  intros H. apply clean_data_Ok_inv in H as (rm & am & Hrm & _ & H).
  apply median_Ok_inv in Hrm as (_ & Hnone).
  split; [ | split ].
  - apply Forall2_Forall_r with (P := fun _ => True) (3 := H).
    + intros a b _ Hab.
      apply clean_row_Ok_inv in Hab as (_ & _ & Hc & Hg & _).
      rewrite Hc, Hg. repeat split; try reflexivity.
      * destruct (Raw.user_country a); reflexivity.
      * destruct (Raw.user_gender a); reflexivity.
    + apply Forall_forall; intros; exact I.
  - intros Hex.
    destruct rm as [ m | ].
    + apply Forall2_Forall_r with (P := fun _ => True) (3 := H).
      * intros a b _ Hab.
        apply clean_row_Ok_inv in Hab as (_ & -> & _).
        destruct (to_numeric to_float (Raw.rating a)); reflexivity.
      * apply Forall_forall; intros; exact I.
    + exfalso.
      assert (Hall : Forall (fun c => c = NA)
                            (map Raw.rating (dropna_review_text df)))
        by (apply Hnone; reflexivity).
      apply Exists_exists in Hex as (r & Hin & Hr).
      rewrite Forall_forall in Hall.
      rewrite (Hall (Raw.rating r) (in_map _ _ _ Hin)) in Hr.
      discriminate Hr.
  - intros Hall.
    assert (Hm : rm = None).
    { apply Hnone. apply Forall_forall. intros c Hc.
      apply in_map_iff in Hc as (r & <- & Hin).
      rewrite Forall_forall in Hall. apply Hall, Hin. }
    subst rm.
    apply Forall2_Forall_r with (P := fun r => Raw.rating r = NA) (3 := H).
    + intros a b Ha Hab.
      apply clean_row_Ok_inv in Hab as (_ & -> & _).
      rewrite Ha. reflexivity.
    + exact Hall.
Qed.

Lemma clean_data_missing_values_witness :
  exists out,
    Tables.clean_data Tables.number_and_missing_rating = Ok out /\
    Forall (fun r => isna_float (Clean.rating r) = false) out.
Proof.
  eexists. split; [ reflexivity | ].
  apply (clean_data_missing_values
           Sample.to_float Sample.to_timestamp Sample.float_repr
           Tables.number_and_missing_rating);
    [ reflexivity | ].
  apply Exists_cons_hd. reflexivity.
Defined.

(** ** Feature enricher *)

Lemma Qle_bool_false_iff (x y : Q) : Qle_bool x y = false <-> y < x.
Proof.
  rewrite <- not_true_iff_false, Qle_bool_iff. split.
  - apply Qnot_le_lt.
  - apply Qlt_not_le.
Qed.

Lemma Qeq_bool_false_iff (x y : Q) : Qeq_bool x y = false <-> ~ x == y.
Proof. rewrite <- not_true_iff_false, Qeq_bool_iff. reflexivity. Qed.

(** Turns the outcome of every comparison in the context into an
    inequality. *)
Ltac comparisons :=
  repeat match goal with
         | H : Qle_bool _ _ = true |- _ => apply Qle_bool_iff in H
         | H : Qle_bool _ _ = false |- _ => apply Qle_bool_false_iff in H
         | H : Qeq_bool _ _ = true |- _ => apply Qeq_bool_iff in H
         | H : Qeq_bool _ _ = false |- _ => apply Qeq_bool_false_iff in H
         end.

(** Decides the bucket of [q] by comparing it with each edge in turn. *)
Ltac by_edges q :=
  cbv [pd.cut pd.searchsorted_left rating_bins age_bins];
  repeat match goal with
         | |- context [Qle_bool q ?b] => destruct (Qle_bool q b) eqn:?
         | |- context [Qeq_bool q ?b] => destruct (Qeq_bool q b) eqn:?
         end;
  comparisons.

(** The bucket of a rating between 0 and 5. *)
Lemma cut_rating (q : Q) :
  0 <= q <= 5 ->
  pd.cut (Some q) rating_bins rating_labels
  = Some (if Qle_bool q 1.9 then "Very Poor"
          else if Qle_bool q 2.9 then "Poor"
          else if Qle_bool q 3.9 then "Average"
          else if Qle_bool q 4.4 then "Good"
          else "Excellent")%string.
Proof.
  intros [Hlo Hhi].
  by_edges q; try reflexivity; exfalso; lra.
Qed.

(** The bucket of an age between 0 and 100. *)
Lemma cut_age (a : Z) :
  (0 <= a <= 100)%Z ->
  pd.cut (Some (inject_Z a)) age_bins age_labels
  = Some (if (a <=? 17)%Z then "Teen"
          else if (a <=? 24)%Z then "Young Adult"
          else if (a <=? 34)%Z then "Adult"
          else if (a <=? 49)%Z then "Middle Age"
          else "Senior")%string.
Proof.
  intros Ha.
  assert (Hle : forall n : Z, Qle_bool (inject_Z a) (inject_Z n) = (a <=? n)%Z).
  { intros n. unfold Qle_bool; simpl. now rewrite !Z.mul_1_r. }
  assert (Heq : Qeq_bool (inject_Z a) (inject_Z 0) = (a =? 0)%Z).
  { unfold Qeq_bool; simpl. now rewrite Z.mul_1_r. }
  cbv [pd.cut pd.searchsorted_left age_bins].
  change 0 with (inject_Z 0). change 17 with (inject_Z 17).
  change 24 with (inject_Z 24). change 34 with (inject_Z 34).
  change 49 with (inject_Z 49). change 100 with (inject_Z 100).
  rewrite Heq, !Hle.
  destruct (a =? 0)%Z eqn:E0; destruct (a <=? 0)%Z eqn:E1;
    destruct (a <=? 17)%Z eqn:E2; destruct (a <=? 24)%Z eqn:E3;
    destruct (a <=? 34)%Z eqn:E4; destruct (a <=? 49)%Z eqn:E5;
    destruct (a <=? 100)%Z eqn:E6; try reflexivity; exfalso; lia.
Qed.

(** C5, as stated, fails for the ages above 100: the last age bin ends at
    100, so a reviewer aged 101 gets no age group. *)
Lemma age_group_none_above_100 :
  exists r, Tables.load_and_process_data Tables.centenarian = Ok [r] /\
            (0 <= Enriched.user_age r)%Z /\
            Enriched.age_group r = None.
Proof.
  eexists; split; [ reflexivity | split; [ | reflexivity ] ].
  vm_compute; discriminate.
Qed.

(** C5, amended: a row with a rating between 1.0 and 5.0 gets one of the
    five rating categories, a row with an age between 0 and 100 gets one of
    the five age groups, and a rating of 4.4 gets the category Good. *)
Theorem bucketing_total_coverage (df : list Clean.row) (r : Enriched.row) :
  In r (add_custom_features df) ->
  (forall q, Enriched.rating r = Some q -> 1 <= q <= 5 ->
     exists l, In l rating_labels /\ Enriched.rating_category r = Some l) /\
  ((0 <= Enriched.user_age r <= 100)%Z ->
     exists l, In l age_labels /\ Enriched.age_group r = Some l) /\
  (forall q, Enriched.rating r = Some q -> q == 4.4 ->
     Enriched.rating_category r = Some "Good"%string).
Proof.
  unfold add_custom_features. intros Hin.
  apply in_map_iff in Hin as (c & <- & _).
  unfold Enriched.rating, Enriched.user_age, enrich_row.
  cbn [Enriched.base Enriched.rating_category Enriched.age_group].
  split; [ | split ].
  - intros q -> [Hlo Hhi].
    rewrite cut_rating by (split; lra).
    eexists; split; [ | reflexivity ].
    unfold rating_labels.
    destruct (Qle_bool q 1.9); [ simpl; tauto | ].
    destruct (Qle_bool q 2.9); [ simpl; tauto | ].
    destruct (Qle_bool q 3.9); [ simpl; tauto | ].
    destruct (Qle_bool q 4.4); simpl; tauto.
  - intros Ha. rewrite cut_age by exact Ha.
    eexists; split; [ | reflexivity ].
    unfold age_labels.
    destruct (Clean.user_age c <=? 17)%Z; [ simpl; tauto | ].
    destruct (Clean.user_age c <=? 24)%Z; [ simpl; tauto | ].
    destruct (Clean.user_age c <=? 34)%Z; [ simpl; tauto | ].
    destruct (Clean.user_age c <=? 49)%Z; simpl; tauto.
  - intros q -> Hq.
    rewrite cut_rating by (split; lra).
    destruct (Qle_bool q 1.9) eqn:E1; destruct (Qle_bool q 2.9) eqn:E2;
      destruct (Qle_bool q 3.9) eqn:E3; destruct (Qle_bool q 4.4) eqn:E4;
      comparisons; try reflexivity; exfalso; lra.
Qed.

Lemma bucketing_total_coverage_witness :
  In (enrich_row Tables.good_review)
     (add_custom_features [Tables.good_review]) /\
  (exists l, In l rating_labels /\
             Enriched.rating_category (enrich_row Tables.good_review) = Some l) /\
  (exists l, In l age_labels /\
             Enriched.age_group (enrich_row Tables.good_review) = Some l) /\
  Enriched.rating_category (enrich_row Tables.good_review) = Some "Good"%string.
Proof.
  assert (Hin : In (enrich_row Tables.good_review)
                   (add_custom_features [Tables.good_review]))
    by (left; reflexivity).
  destruct (bucketing_total_coverage [Tables.good_review] _ Hin)
    as (Hr & Ha & Hg).
  split; [ exact Hin | split; [ | split ] ].
  - apply (Hr 4.4); [ reflexivity | split; vm_compute; discriminate ].
  - apply Ha. split; vm_compute; discriminate.
  - apply (Hg 4.4); reflexivity.
Defined.

(** ** Filter engine *)

Lemma filter_filter_andb (A : Type) (f g : A -> bool) (l : list A) :
  filter g (filter f l) = filter (fun x => f x && g x) l.
Proof.
  induction l as [ | x l IH ]; simpl; [ reflexivity | ].
  destruct (f x); simpl; [ destruct (g x) | ]; now rewrite IH.
Qed.

Lemma filter_all (A : Type) (f : A -> bool) (l : list A) :
  Forall (fun x => f x = true) l -> filter f l = l.
Proof.
  induction 1 as [ | x l Hx _ IH ]; simpl; [ reflexivity | ].
  now rewrite Hx, IH.
Qed.

Lemma filter_none (A : Type) (f : A -> bool) (l : list A) :
  Forall (fun x => f x = false) l -> filter f l = [].
Proof.
  induction 1 as [ | x l Hx _ IH ]; simpl; [ reflexivity | ].
  now rewrite Hx.
Qed.

Lemma optional_step (A : Type) (off : bool) (p : A -> bool) (l : list A) :
  (if negb off then filter p l else l) = filter (fun x => off || p x) l.
Proof.
  destruct off; simpl; [ | reflexivity ].
  symmetry. apply filter_all, Forall_forall. reflexivity.
Qed.

(** [filter_dataframe] keeps exactly the rows its mask selects. *)
Lemma apply_criteria_filter (df : list Enriched.row) (c : criteria) :
  apply_criteria df c = filter (selects c) df.
Proof.
  unfold apply_criteria, filter_dataframe.
  rewrite !optional_step, !filter_filter_andb.
  destruct (date_range c) as [ | s [ | e [ | x dr ] ] ] eqn:Hdr;
    rewrite ?filter_filter_andb;
    apply filter_ext; intros r;
    unfold selects, app_mask, category_mask, rating_mask, date_mask;
    rewrite Hdr, ?andb_true_r, ?andb_assoc; reflexivity.
Qed.

Lemma eq_str_iff (x : cell) (s : string) : eq_str x s = true <-> x = Str s.
Proof.
  destruct x as [ | q | s' ]; simpl; try (split; discriminate).
  rewrite String.eqb_eq. split; [ intros ->; reflexivity | ].
  intros H; injection H as ->; reflexivity.
Qed.

Lemma in_range_iff (x : option Q) (lo hi : Q) :
  ge x lo && le x hi = true <-> exists q, x = Some q /\ lo <= q /\ q <= hi.
Proof.
  destruct x as [ q | ]; simpl.
  - rewrite andb_true_iff, !Qle_bool_iff. split.
    + intros H. exists q. split; [ reflexivity | exact H ].
    + intros (q' & Hq & H). injection Hq as ->. exact H.
  - split; [ discriminate | intros (q & Hq & _); discriminate Hq ].
Qed.

Lemma in_dates_iff (x : option Z) (s e : Z) :
  date_ge x s && date_le x e = true
  <-> exists ts, x = Some ts /\ (s <= dt_date ts <= e)%Z.
Proof.
  destruct x as [ ts | ]; simpl.
  - rewrite andb_true_iff, !Z.leb_le. split.
    + intros H. exists ts. split; [ reflexivity | exact H ].
    + intros (ts' & Hts & H). injection Hts as ->. exact H.
  - split; [ discriminate | intros (ts & Hts & _); discriminate Hts ].
Qed.

(** The mask is the conjunction of the constraints that are present. *)
Lemma selects_iff (c : criteria) (r : Enriched.row) :
  selects c r = true <-> satisfies c r.
Proof.
  unfold selects, satisfies, app_mask, category_mask, rating_mask, date_mask.
  rewrite !andb_true_iff, !orb_true_iff, !String.eqb_eq, !eq_str_iff,
    <- andb_true_iff, in_range_iff.
  destruct (date_range c) as [ | s [ | e [ | x dr ] ] ];
    try rewrite in_dates_iff;
    (split; [ intros (((Ha & Hc) & Hr) & Hd) | intros (Ha & Hc & Hr & Hd) ]);
    repeat split; try assumption; try discriminate.
  - intros s' e' Heq. injection Heq as <- <-. exact Hd.
  - apply Hd. reflexivity.
Qed.

Lemma in_apply_criteria (df : list Enriched.row) (c : criteria)
      (r : Enriched.row) :
  In r (apply_criteria df c) <-> In r df /\ satisfies c r.
Proof. now rewrite apply_criteria_filter, filter_In, selects_iff. Qed.

Lemma filter_Subseq (A : Type) (f : A -> bool) (l : list A) :
  Subseq (filter f l) l.
Proof.
  induction l as [ | x l IH ]; simpl; [ constructor | ].
  destruct (f x); constructor; exact IH.
Qed.

Lemma Subseq_In (A : Type) (l1 l2 : list A) :
  Subseq l1 l2 -> forall x, In x l1 -> In x l2.
Proof.
  induction 1 as [ | y l1 l2 _ IH | y l1 l2 _ IH ]; simpl; intros x Hx.
  - exact Hx.
  - right. apply IH, Hx.
  - destruct Hx as [ -> | Hx ]; [ left; reflexivity | right; apply IH, Hx ].
Qed.

Lemma Subseq_count_occ (A : Type) (eq_dec : forall a b : A, {a = b} + {a <> b})
      (l1 l2 : list A) :
  Subseq l1 l2 ->
  forall x, (count_occ eq_dec l1 x <= count_occ eq_dec l2 x)%nat.
Proof.
  induction 1 as [ | y l1 l2 _ IH | y l1 l2 _ IH ]; simpl; intros x.
  - apply Nat.le_refl.
  - specialize (IH x). destruct (eq_dec y x); lia.
  - specialize (IH x). destruct (eq_dec y x); lia.
Qed.

Lemma series_min_le (l : list (option Z)) (t : Z) :
  In (Some t) l -> exists m, series_min l = Some m /\ (m <= t)%Z.
Proof.
  induction l as [ | x l IH ]; simpl; [ intros [] | ].
  intros [ -> | Hin ].
  - destruct (series_min l) as [ m | ]; eexists; split;
      try reflexivity; lia.
  - destruct (IH Hin) as (m & -> & Hm).
    destruct x as [ t' | ]; eexists; split; try reflexivity; lia.
Qed.

Lemma series_max_ge (l : list (option Z)) (t : Z) :
  In (Some t) l -> exists m, series_max l = Some m /\ (t <= m)%Z.
Proof.
  induction l as [ | x l IH ]; simpl; [ intros [] | ].
  intros [ -> | Hin ].
  - destruct (series_max l) as [ m | ]; eexists; split;
      try reflexivity; lia.
  - destruct (IH Hin) as (m & -> & Hm).
    destruct x as [ t' | ]; eexists; split; try reflexivity; lia.
Qed.

Lemma dt_date_mono (t1 t2 : Z) : (t1 <= t2)%Z -> (dt_date t1 <= dt_date t2)%Z.
Proof.
  intros H. unfold dt_date. apply Z.div_le_mono; [ reflexivity | exact H ].
Qed.

(** Every dated row lies within the initial range of the date input. *)
Lemma full_date_range_covers (df : list Enriched.row) (r : Enriched.row)
      (ts : Z) :
  In r df -> Enriched.review_date r = Some ts ->
  exists s e, full_date_range df = Some [s; e] /\ (s <= dt_date ts <= e)%Z.
Proof.
  intros Hin Hts. unfold full_date_range.
  assert (Hd : In (Some ts) (map Enriched.review_date df))
    by (rewrite <- Hts; apply in_map, Hin).
  destruct (series_min_le _ _ Hd) as (a & -> & Ha).
  destruct (series_max_ge _ _ Hd) as (b & -> & Hb).
  exists (dt_date a), (dt_date b). split; [ reflexivity | ].
  split; apply dt_date_mono; assumption.
Qed.

(** C6, as stated, fails: with every control at no restriction, the review
    whose date is unknown is left out of the view. *)
Lemma unrestricted_filter_drops_unknown_date :
  exists df dr,
    Tables.load_and_process_data Tables.one_unknown_date = Ok df /\
    full_date_range df = Some dr /\
    apply_criteria df (unrestricted dr) <> df.
Proof.
  do 2 eexists. split; [ reflexivity | split; [ reflexivity | ] ].
  intros H. apply (f_equal (@List.length _)) in H.
  vm_compute in H. discriminate H.
Qed.

(** C6, amended: on a table whose rows all have a rating between 1.0 and
    5.0 and a known date, filtering with both boxes at All, the full slider
    range and the full date range returns the table itself. *)
Theorem unrestricted_filter_identity (df : list Enriched.row) (dr : list Z) :
  Forall (fun r => exists q, Enriched.rating r = Some q /\ 1 <= q <= 5) df ->
  Forall (fun r => Enriched.review_date r <> None) df ->
  (df <> [] -> full_date_range df = Some dr) ->
  apply_criteria df (unrestricted dr) = df.
Proof.
  intros Hrating Hdate Hdr.
  rewrite apply_criteria_filter. apply filter_all, Forall_forall.
  intros r Hin. apply selects_iff.
  rewrite Forall_forall in Hrating, Hdate.
  unfold satisfies, unrestricted, slider_range; simpl.
  split; [ left; reflexivity | split; [ left; reflexivity | split ] ].
  - destruct (Hrating r Hin) as (q & Hq & Hlo & Hhi).
    exists q. split; [ exact Hq | split; lra ].
  - intros s e Heq.
    destruct (Enriched.review_date r) as [ ts | ] eqn:Hts;
      [ | exfalso; apply (Hdate r Hin), Hts ].
    destruct (full_date_range_covers df r ts Hin Hts) as (s' & e' & Hfull & Hin').
    rewrite Hdr in Hfull by (intros ->; exact Hin).
    injection Hfull as ->. injection Heq as <- <-.
    exists ts. split; [ reflexivity | exact Hin' ].
Qed.

Lemma unrestricted_filter_identity_witness :
  apply_criteria (Tables.enriched Tables.three_reviews)
                 (unrestricted [Tables.day 2025 8 1; Tables.day 2025 8 3])
  = Tables.enriched Tables.three_reviews.
Proof.
  apply unrestricted_filter_identity.
  - repeat constructor; eexists; (split; [ reflexivity | ]);
      split; vm_compute; discriminate.
  - repeat constructor; discriminate.
  - intros _. reflexivity.
Defined.

(** C7: when the date range has its two ends, so that the date step of the
    filter runs, a row whose review_date is NaT is not in the view. *)
Theorem date_filter_excludes_unknown_date (df : list Enriched.row)
        (c : criteria) (r : Enriched.row) :
  List.length (date_range c) = 2%nat ->
  In r df ->
  Enriched.review_date r = None ->
  ~ In r (apply_criteria df c).
Proof.
  intros Hlen _ Hnat Hin.
  apply in_apply_criteria in Hin as (_ & _ & _ & _ & Hdate).
  destruct (date_range c) as [ | s [ | e [ | x dr ] ] ]; try discriminate Hlen.
  destruct (Hdate s e eq_refl) as (ts & Hts & _).
  rewrite Hnat in Hts. discriminate Hts.
Qed.

Lemma date_filter_excludes_unknown_date_witness :
  ~ In (enrich_row Tables.undated_review)
       (apply_criteria
          (add_custom_features [Tables.good_review; Tables.undated_review])
          (unrestricted [Tables.day 2025 8 1; Tables.day 2025 8 1])).
Proof.
  apply date_filter_excludes_unknown_date.
  - reflexivity.
  - right; left; reflexivity.
  - reflexivity.
Defined.


(** C8: when no row satisfies all the constraints, the filter returns the
    empty view, and [main] stops at the warning: it returns normally
    without computing the insights, although the best category of an empty
    view would raise. *)
Theorem no_match_gives_warning (df : list Enriched.row) (c : criteria) :
  (forall r, In r df -> ~ satisfies c r) ->
  apply_criteria df c = [] /\
  main df c = Ok NoData /\
  idxmax (category_means (apply_criteria df c)) = Raise ValueError /\
  idxmin (category_means (apply_criteria df c)) = Raise ValueError.
Proof.
  intros Hnone.
  assert (Hview : apply_criteria df c = []).
  { rewrite apply_criteria_filter. apply filter_none, Forall_forall.
    intros r Hin. apply not_true_iff_false.
    rewrite selects_iff. apply Hnone, Hin. }
  unfold main. rewrite Hview. repeat split.
Qed.

Lemma no_match_gives_warning_witness :
  main (Tables.enriched Tables.three_reviews)
       (set_control (ByApp "Notes") (unrestricted [])) = Ok NoData.
Proof.
  apply no_match_gives_warning.
  intros r Hin (Happ & _).
  destruct Happ as [ Happ | Happ ]; [ discriminate Happ | ].
  simpl in Hin.
  destruct Hin as [ <- | [ <- | [ <- | [] ] ] ]; discriminate Happ.
Defined.

(** Filtering a view again keeps the rows both masks select. *)
Lemma apply_criteria_twice (df : list Enriched.row) (c1 c2 : criteria) :
  apply_criteria (apply_criteria df c1) c2
  = filter (fun r => selects c1 r && selects c2 r) df.
Proof. now rewrite !apply_criteria_filter, filter_filter_andb. Qed.










(** C10: the view is the table with some rows left out: its rows, unchanged,
    are rows of the table, in the same order, none more often than in the
    table. *)
Theorem view_is_subsequence (df : list Enriched.row) (c : criteria) :
  Subseq (apply_criteria df c) df /\
  (forall r, In r (apply_criteria df c) -> In r df) /\
  (forall (eq_dec : forall a b : Enriched.row, {a = b} + {a <> b}) r,
      (count_occ eq_dec (apply_criteria df c) r <= count_occ eq_dec df r)%nat).
Proof.
  assert (H : Subseq (apply_criteria df c) df)
    by (rewrite apply_criteria_filter; apply filter_Subseq).
  split; [ exact H | split ].
  - apply Subseq_In, H.
  - intros eq_dec. apply Subseq_count_occ, H.
Qed.


(** * Further properties *)

(** ** Cleaner: outcome *)



Lemma dropna_review_text_idem (df : list Raw.row) :
  dropna_review_text (dropna_review_text df) = dropna_review_text df.
Proof.
  unfold dropna_review_text. rewrite filter_filter_andb.
  apply filter_ext. intros r. apply andb_diag.
Qed.

Lemma dropna_review_text_skip (l1 l2 : list Raw.row) (r : Raw.row) :
  Raw.review_text r = NA ->
  dropna_review_text (l1 ++ r :: l2) = dropna_review_text (l1 ++ l2).
Proof.
  intros Hr. unfold dropna_review_text.
  rewrite !filter_app. simpl. rewrite Hr. reflexivity.
Qed.

Section CleanerOutcome.

Variable to_float : string -> option Q.
Variable to_timestamp : list cell -> cell -> option Z.
Variable float_repr : Q -> string.

Local Abbreviation cleaner :=
  (clean_data to_float to_timestamp float_repr).
Local Abbreviation row_cleaner :=
  (clean_row to_float to_timestamp float_repr).

(** The age and the version a successful [clean_row] has built. *)
Lemma clean_row_Ok_age rm am dates (r : Raw.row) (b : Clean.row) :
  row_cleaner rm am dates r = Ok b ->
  astype_int_cell (pd.fillna_num am (Raw.user_age r)) = Ok (Clean.user_age b) /\
  Clean.app_version b
  = pd.lstrip_v (astype_str float_repr
                            (pd.fillna_str "Unknown" (Raw.app_version r))).
Proof.
  unfold clean_row; intros H.
  apply bind_Ok_inv in H as (age & Hage & H).
  injection H as <-; simpl. split; [ exact Hage | reflexivity ].
Qed.



(** X1: a row without review_text has no influence on the result of the
    cleaner, neither on the rows returned nor on the medians nor on whether
    it raises: the table with the row and the table without it are cleaned
    alike. *)
Theorem clean_data_ignores_row_without_text (l1 l2 : list Raw.row)
        (r : Raw.row) :
  Raw.review_text r = NA ->
  cleaner (l1 ++ r :: l2) = cleaner (l1 ++ l2).
Proof.
  intros Hr. unfold clean_data.
  rewrite (dropna_review_text_skip l1 l2 r Hr). reflexivity.
Qed.


End CleanerOutcome.

Lemma clean_data_ignores_row_without_text_witness :
  Tables.clean_data (Tables.empty_text ++ Tables.no_rating)
  = Tables.clean_data (tl Tables.empty_text ++ Tables.no_rating).
Proof.
  apply (clean_data_ignores_row_without_text
           Sample.to_float Sample.to_timestamp Sample.float_repr
           [] (tl Tables.empty_text ++ Tables.no_rating)).
  reflexivity.
Defined.



(** ** Cleaner: values *)

Lemma lstrip_v_head (s s' : string) : pd.lstrip_v s <> String "v" s'.
Proof.
  induction s as [ | c s IH ]; [ discriminate | ].
  destruct c as [ [] [] [] [] [] [] [] [] ]; simpl;
    first [ exact IH | discriminate ].
Qed.



Lemma Qred_between (v lo hi : Q) : lo <= v <= hi -> lo <= Qred v <= hi.
Proof.
  intros [H1 H2]. split.
  - apply Qle_trans with v; [ exact H1 | ].
    rewrite Qred_correct. apply Qle_refl.
  - apply Qle_trans with v; [ | exact H2 ].
    rewrite Qred_correct. apply Qle_refl.
Qed.




Section CleanerValues.

Variable to_float : string -> option Q.
Variable to_timestamp : list cell -> cell -> option Z.
Variable float_repr : Q -> string.

Local Abbreviation cleaner :=
  (clean_data to_float to_timestamp float_repr).

(** X4: no app_version of a cleaned table starts with the letter v. *)
Theorem clean_data_version_without_v (df : list Raw.row)
        (out : list Clean.row) :
  cleaner df = Ok out ->
  Forall (fun r => forall s, Clean.app_version r <> String "v" s) out.
Proof.
  intros H. apply clean_data_Ok_inv in H as (rm & am & _ & _ & H).
  apply Forall2_Forall_r with (P := fun _ => True) (3 := H).
  - intros a b _ Hab s.
    apply clean_row_Ok_age in Hab as (_ & ->). apply lstrip_v_head.
  - apply Forall_forall; intros; exact I.
Qed.



End CleanerValues.

Lemma clean_data_version_without_v_witness :
  exists out,
    Tables.clean_data Tables.number_and_missing_rating = Ok out /\
    Forall (fun r => forall s, Clean.app_version r <> String "v" s) out.
Proof.
  eexists. split; [ reflexivity | ].
  apply (clean_data_version_without_v
           Sample.to_float Sample.to_timestamp Sample.float_repr
           Tables.number_and_missing_rating).
  reflexivity.
Defined.



(** ** Feature enricher: bucket edges *)

Lemma cut_rating_outside (q : Q) :
  q < 0 \/ 5 < q -> pd.cut (Some q) rating_bins rating_labels = None.
Proof.
  intros Hq. by_edges q; try reflexivity; exfalso; lra.
Qed.

Lemma cut_age_outside (a : Z) :
  (a < 0 \/ 100 < a)%Z ->
  pd.cut (Some (inject_Z a)) age_bins age_labels = None.
Proof.
  intros Ha.
  assert (Hle : forall n : Z, Qle_bool (inject_Z a) (inject_Z n) = (a <=? n)%Z).
  { intros n. unfold Qle_bool; simpl. now rewrite !Z.mul_1_r. }
  assert (Heq : Qeq_bool (inject_Z a) (inject_Z 0) = (a =? 0)%Z).
  { unfold Qeq_bool; simpl. now rewrite Z.mul_1_r. }
  cbv [pd.cut pd.searchsorted_left age_bins].
  change 0 with (inject_Z 0). change 17 with (inject_Z 17).
  change 24 with (inject_Z 24). change 34 with (inject_Z 34).
  change 49 with (inject_Z 49). change 100 with (inject_Z 100).
  rewrite Heq, !Hle.
  destruct (a =? 0)%Z eqn:E0; destruct (a <=? 0)%Z eqn:E1;
    destruct (a <=? 17)%Z eqn:E2; destruct (a <=? 24)%Z eqn:E3;
    destruct (a <=? 34)%Z eqn:E4; destruct (a <=? 49)%Z eqn:E5;
    destruct (a <=? 100)%Z eqn:E6; try reflexivity; exfalso; lia.
Qed.

(** X7: the enricher leaves rating_category empty exactly for a missing
    rating and for a rating below 0 or above 5, and age_group empty exactly
    for an age below 0 or above 100. *)
Theorem no_bucket_iff_outside_bins (c : Clean.row) :
  (Enriched.rating_category (enrich_row c) = None <->
   Clean.rating c = None \/
   exists q, Clean.rating c = Some q /\ (q < 0 \/ 5 < q)) /\
  (Enriched.age_group (enrich_row c) = None <->
   (Clean.user_age c < 0 \/ 100 < Clean.user_age c)%Z).
Proof.
  unfold enrich_row; cbn [Enriched.rating_category Enriched.age_group].
  split.
  - destruct (Clean.rating c) as [ q | ].
    + destruct (Qlt_le_dec q 0) as [ Hlo | Hlo ];
        [ | destruct (Qlt_le_dec 5 q) as [ Hhi | Hhi ] ].
      * rewrite cut_rating_outside by (left; exact Hlo).
        split; [ intros _; right; exists q; split; [ reflexivity | left; exact Hlo ]
               | reflexivity ].
      * rewrite cut_rating_outside by (right; exact Hhi).
        split; [ intros _; right; exists q; split; [ reflexivity | right; exact Hhi ]
               | reflexivity ].
      * rewrite cut_rating by (split; assumption).
        split; [ discriminate | ].
        intros [ H | (q' & H & Hq') ]; [ discriminate H | ].
        injection H as <-. exfalso. lra.
    + split; [ intros _; left; reflexivity | reflexivity ].
  - destruct (Z.lt_ge_cases (Clean.user_age c) 0) as [ Hlo | Hlo ];
      [ | destruct (Z.lt_ge_cases 100 (Clean.user_age c)) as [ Hhi | Hhi ] ].
    + rewrite cut_age_outside by (left; exact Hlo).
      split; [ intros _; left; exact Hlo | reflexivity ].
    + rewrite cut_age_outside by (right; exact Hhi).
      split; [ intros _; right; exact Hhi | reflexivity ].
    + rewrite cut_age by (split; assumption).
      split; [ discriminate | lia ].
Qed.

(** X8: the rating categories are the intervals [0, 1.9], (1.9, 2.9],
    (2.9, 3.9], (3.9, 4.4] and (4.4, 5]: each is closed on the right, and
    the first one includes 0. *)
Theorem rating_category_intervals (c : Clean.row) (q : Q) :
  Clean.rating c = Some q ->
  let cat := Enriched.rating_category (enrich_row c) in
  (cat = Some "Very Poor"%string <-> 0 <= q <= 1.9) /\
  (cat = Some "Poor"%string <-> 1.9 < q <= 2.9) /\
  (cat = Some "Average"%string <-> 2.9 < q <= 3.9) /\
  (cat = Some "Good"%string <-> 3.9 < q <= 4.4) /\
  (cat = Some "Excellent"%string <-> 4.4 < q <= 5).
Proof.
  intros Hq. unfold enrich_row; cbn [Enriched.rating_category]. rewrite Hq.
  destruct (Qlt_le_dec q 0) as [ Hlo | Hlo ];
    [ | destruct (Qlt_le_dec 5 q) as [ Hhi | Hhi ] ].
  - rewrite cut_rating_outside by (left; exact Hlo).
    repeat split; try discriminate; intros; exfalso; lra.
  - rewrite cut_rating_outside by (right; exact Hhi).
    repeat split; try discriminate; intros; exfalso; lra.
  - rewrite cut_rating by (split; assumption).
    destruct (Qle_bool q 1.9) eqn:E1; destruct (Qle_bool q 2.9) eqn:E2;
      destruct (Qle_bool q 3.9) eqn:E3; destruct (Qle_bool q 4.4) eqn:E4;
      comparisons;
      repeat split; try discriminate; try reflexivity; try lra;
      intros; exfalso; lra.
Qed.

Lemma rating_category_intervals_witness :
  Enriched.rating_category (enrich_row Tables.good_review)
  = Some "Good"%string <-> 3.9 < 4.4 <= 4.4.
Proof.
  apply (rating_category_intervals Tables.good_review 4.4 eq_refl).
Defined.

(** X9: the age groups are the intervals [0, 17], (17, 24], (24, 34],
    (34, 49] and (49, 100] of the integer age. *)
Theorem age_group_intervals (c : Clean.row) :
  let a := Clean.user_age c in
  let grp := Enriched.age_group (enrich_row c) in
  (grp = Some "Teen"%string <-> (0 <= a <= 17)%Z) /\
  (grp = Some "Young Adult"%string <-> (17 < a <= 24)%Z) /\
  (grp = Some "Adult"%string <-> (24 < a <= 34)%Z) /\
  (grp = Some "Middle Age"%string <-> (34 < a <= 49)%Z) /\
  (grp = Some "Senior"%string <-> (49 < a <= 100)%Z).
Proof.
  unfold enrich_row; cbn [Enriched.age_group].
  destruct (Z.lt_ge_cases (Clean.user_age c) 0) as [ Hlo | Hlo ];
    [ | destruct (Z.lt_ge_cases 100 (Clean.user_age c)) as [ Hhi | Hhi ] ].
  - rewrite cut_age_outside by (left; exact Hlo).
    repeat split; try discriminate; intros; exfalso; lia.
  - rewrite cut_age_outside by (right; exact Hhi).
    repeat split; try discriminate; intros; exfalso; lia.
  - rewrite cut_age by (split; assumption).
    destruct (Clean.user_age c <=? 17)%Z eqn:E1;
      destruct (Clean.user_age c <=? 24)%Z eqn:E2;
      destruct (Clean.user_age c <=? 34)%Z eqn:E3;
      destruct (Clean.user_age c <=? 49)%Z eqn:E4;
      repeat split; try discriminate; try reflexivity; try lia;
      intros; exfalso; lia.
Qed.

(** ** Filter engine: composition and edge cases *)

(** X10: a row is in the view exactly when it is in the table and meets
    every constraint: its app is the selected one unless All is selected,
    likewise its category, its rating is a number within the inclusive
    rating range and, when the date range has two ends, its date is known
    and within the inclusive date range. *)
Theorem view_membership (df : list Enriched.row) (c : criteria)
        (r : Enriched.row) :
  In r (apply_criteria df c) <-> In r df /\ satisfies c r.
Proof. rewrite apply_criteria_filter, filter_In, selects_iff. reflexivity. Qed.

(** X11: filtering a view again with the same settings changes nothing. *)
Theorem filter_idempotent (df : list Enriched.row) (c : criteria) :
  apply_criteria (apply_criteria df c) c = apply_criteria df c.
Proof.
  rewrite apply_criteria_twice, apply_criteria_filter.
  apply filter_ext. intros r. apply andb_diag.
Qed.

(** X12: two filterings can be done in either order. *)
Theorem filter_commutes (df : list Enriched.row) (c1 c2 : criteria) :
  apply_criteria (apply_criteria df c1) c2
  = apply_criteria (apply_criteria df c2) c1.
Proof.
  rewrite !apply_criteria_twice.
  apply filter_ext. intros r. apply andb_comm.
Qed.

(** X13: the filter works row by row: the view of two tables put one after
    the other is the view of the first followed by the view of the
    second. *)
Theorem filter_app_distr (df1 df2 : list Enriched.row) (c : criteria) :
  apply_criteria (df1 ++ df2) c = apply_criteria df1 c ++ apply_criteria df2 c.
Proof. rewrite !apply_criteria_filter. apply filter_app. Qed.

(** X14: a date range that does not have exactly two ends (a single picked
    date, for instance) restricts nothing: the view is the one obtained
    with no date range at all, rows of unknown date included. *)
Theorem incomplete_date_range_ignored (df : list Enriched.row)
        (a g : string) (rr : Q * Q) (dr : list Z) :
  List.length dr <> 2%nat ->
  filter_dataframe df a g rr dr = filter_dataframe df a g rr [].
Proof.
  intros Hlen. unfold filter_dataframe.
  destruct dr as [ | s [ | e [ | x dr ] ] ]; try reflexivity.
  exfalso. apply Hlen. reflexivity.
Qed.

Lemma incomplete_date_range_ignored_witness :
  filter_dataframe
    (add_custom_features [Tables.good_review; Tables.undated_review])
    "All" "All" slider_range [Tables.day 2025 8 1]
  = add_custom_features [Tables.good_review; Tables.undated_review].
Proof.
  rewrite incomplete_date_range_ignored by (simpl; discriminate).
  reflexivity.
Defined.

(** X15: a rating range whose lower end is above its upper end, or a date
    range whose start is after its end, gives the empty view. *)
Theorem inverted_range_gives_empty_view (df : list Enriched.row)
        (c : criteria) :
  snd (rating_range c) < fst (rating_range c)
  \/ (exists s e, date_range c = [s; e] /\ (e < s)%Z) ->
  apply_criteria df c = [].
Proof.
  intros H. rewrite apply_criteria_filter.
  apply filter_none, Forall_forall. intros r _.
  apply not_true_iff_false. rewrite selects_iff.
  intros (_ & _ & (q & _ & Hlo & Hhi) & Hdate).
  destruct H as [ H | (s & e & Hdr & H) ].
  - lra.
  - destruct (Hdate s e Hdr) as (ts & _ & Hts). lia.
Qed.

Lemma inverted_range_gives_empty_view_witness :
  apply_criteria (Tables.enriched Tables.three_reviews)
                 (set_control (ByRating 4 2) (unrestricted [])) = [].
Proof.
  apply inverted_range_gives_empty_view.
  left. vm_compute. reflexivity.
Defined.

(** One setting is at least as strict as another. *)
Lemma selects_stricter (c c' : criteria) (r : Enriched.row) :
  (app c = "All"%string \/ app c = app c') ->
  (category c = "All"%string \/ category c = category c') ->
  fst (rating_range c) <= fst (rating_range c') ->
  snd (rating_range c') <= snd (rating_range c) ->
  (List.length (date_range c) <> 2%nat \/
   exists s e s' e', date_range c = [s; e] /\ date_range c' = [s'; e'] /\
                     (s <= s')%Z /\ (e' <= e)%Z) ->
  selects c' r = true -> selects c r = true.
Proof.
  intros Happ Hcat Hlo Hhi Hdate. rewrite !selects_iff.
  intros (Ha & Hg & (q & Hq & Hq1 & Hq2) & Hd).
  repeat split.
  - destruct Happ as [ H | H ]; [ left; exact H | ].
    destruct Ha as [ Ha | Ha ]; [ left | right ]; congruence.
  - destruct Hcat as [ H | H ]; [ left; exact H | ].
    destruct Hg as [ Hg | Hg ]; [ left | right ]; congruence.
  - exists q. split; [ exact Hq | split; lra ].
  - intros s e Hdr.
    destruct Hdate as [ Hlen | (s0 & e0 & s' & e' & H0 & H' & Hs & He) ].
    + exfalso. apply Hlen. rewrite Hdr. reflexivity.
    + rewrite Hdr in H0. injection H0 as <- <-.
      destruct (Hd s' e' H') as (ts & Hts & Hin).
      exists ts. split; [ exact Hts | lia ].
Qed.

(** X16: refining a view gives what filtering the table gives: when the
    second settings are at least as strict as the first in every control
    (same app or category unless the first is All, a rating range and a
    date range within the first ones), filtering the first view with them
    equals filtering the whole table with them. *)
Theorem refine_view (df : list Enriched.row) (c c' : criteria) :
  (app c = "All"%string \/ app c = app c') ->
  (category c = "All"%string \/ category c = category c') ->
  fst (rating_range c) <= fst (rating_range c') ->
  snd (rating_range c') <= snd (rating_range c) ->
  (List.length (date_range c) <> 2%nat \/
   exists s e s' e', date_range c = [s; e] /\ date_range c' = [s'; e'] /\
                     (s <= s')%Z /\ (e' <= e)%Z) ->
  apply_criteria (apply_criteria df c) c' = apply_criteria df c'.
Proof.
  intros Happ Hcat Hlo Hhi Hdate.
  rewrite apply_criteria_twice, apply_criteria_filter.
  apply filter_ext. intros r.
  pose proof (selects_stricter c c' r Happ Hcat Hlo Hhi Hdate) as H.
  destruct (selects c' r); [ rewrite H by reflexivity; reflexivity | ].
  apply andb_false_r.
Qed.

Lemma refine_view_witness :
  apply_criteria
    (apply_criteria (Tables.enriched Tables.three_reviews) (unrestricted []))
    (set_control (ByApp "Maps") (set_control (ByRating 4 5) (unrestricted [])))
  = apply_criteria (Tables.enriched Tables.three_reviews)
      (set_control (ByApp "Maps") (set_control (ByRating 4 5) (unrestricted []))).
Proof.
  apply refine_view.
  - left; reflexivity.
  - left; reflexivity.
  - vm_compute; discriminate.
  - vm_compute; discriminate.
  - left; simpl; discriminate.
Defined.

(** ** Sidebar: initial date range *)

Lemma series_min_In (l : list (option Z)) :
  forall m, series_min l = Some m -> In (Some m) l.
Proof.
  induction l as [ | [ t | ] l IH ]; simpl; intros m; [ discriminate | | ].
  - destruct (series_min l) as [ m' | ].
    + intros H; injection H as <-.
      destruct (Z.min_spec t m') as [ (_ & ->) | (_ & ->) ];
        [ left; reflexivity | right; apply IH; reflexivity ].
    + intros H; injection H as <-. left; reflexivity.
  - intros H. right. apply IH, H.
Qed.

Lemma series_max_In (l : list (option Z)) :
  forall m, series_max l = Some m -> In (Some m) l.
Proof.
  induction l as [ | [ t | ] l IH ]; simpl; intros m; [ discriminate | | ].
  - destruct (series_max l) as [ m' | ].
    + intros H; injection H as <-.
      destruct (Z.max_spec t m') as [ (_ & ->) | (_ & ->) ];
        [ right; apply IH; reflexivity | left; reflexivity ].
    + intros H; injection H as <-. left; reflexivity.
  - intros H. right. apply IH, H.
Qed.

(** X17: the initial value of the date input, when the table has dates, is
    a range from the day of some row to the day of some row, start not
    after end, that contains the day of every dated row. *)
Theorem full_date_range_tight (df : list Enriched.row) (dr : list Z) :
  full_date_range df = Some dr ->
  exists s e,
    dr = [s; e] /\ (s <= e)%Z /\
    (exists r ts, In r df /\ Enriched.review_date r = Some ts /\ dt_date ts = s) /\
    (exists r ts, In r df /\ Enriched.review_date r = Some ts /\ dt_date ts = e) /\
    (forall r ts, In r df -> Enriched.review_date r = Some ts ->
                  (s <= dt_date ts <= e)%Z).
Proof.
  unfold full_date_range.
  destruct (series_min (map Enriched.review_date df)) as [ a | ] eqn:Ha;
    [ | discriminate ].
  destruct (series_max (map Enriched.review_date df)) as [ b | ] eqn:Hb;
    [ | discriminate ].
  intros H; injection H as <-.
  exists (dt_date a), (dt_date b).
  pose proof (series_min_In _ _ Ha) as Hain.
  pose proof (series_max_In _ _ Hb) as Hbin.
  apply in_map_iff in Hain as (ra & Hra & Hina).
  apply in_map_iff in Hbin as (rb & Hrb & Hinb).
  assert (Hcov : forall r ts, In r df -> Enriched.review_date r = Some ts ->
                              (dt_date a <= dt_date ts <= dt_date b)%Z).
  { intros r ts Hin Hts.
    assert (Hd : In (Some ts) (map Enriched.review_date df))
      by (rewrite <- Hts; apply in_map, Hin).
    destruct (series_min_le _ _ Hd) as (a' & Ha' & Hle).
    destruct (series_max_ge _ _ Hd) as (b' & Hb' & Hge).
    rewrite Ha in Ha'. injection Ha' as <-.
    rewrite Hb in Hb'. injection Hb' as <-.
    split; apply dt_date_mono; assumption. }
  split; [ reflexivity | split; [ | split; [ | split ] ] ].
  - apply (Hcov ra a Hina Hra).
  - exists ra, a. repeat split; assumption.
  - exists rb, b. repeat split; assumption.
  - exact Hcov.
Qed.

Lemma full_date_range_tight_witness :
  exists s e,
    [Tables.day 2025 8 1; Tables.day 2025 8 3] = [s; e] /\ (s <= e)%Z.
Proof.
  destruct (full_date_range_tight (Tables.enriched Tables.three_reviews)
              [Tables.day 2025 8 1; Tables.day 2025 8 3] eq_refl)
    as (s & e & Hdr & Hle & _).
  exists s, e. split; assumption.
Defined.

(** ** Reporter: metrics and insights *)

Local Abbreviation count_Q n := (inject_Z (Z.of_nat n)).

Lemma count_Q_succ (n : nat) : count_Q (S n) == count_Q n + 1.
Proof.
  rewrite Nat2Z.inj_succ, <- Z.add_1_r, inject_Z_plus.
  reflexivity.
Qed.

Lemma count_Q_nonneg (n : nat) : 0 <= count_Q n.
Proof. unfold Qle; simpl. lia. Qed.

Lemma fold_sum_bounds (lo hi : Q) (qs : list Q) :
  forall acc n : Q,
    (forall x, In x qs -> lo <= x <= hi) ->
    lo * n <= acc <= hi * n ->
    lo * (n + count_Q (List.length qs)) <= fold_left Qplus qs acc
    <= hi * (n + count_Q (List.length qs)).
Proof.
  induction qs as [ | x qs IH ]; intros acc n Hqs Hacc.
  - cbn [List.length fold_left].
    change (inject_Z (Z.of_nat 0)) with 0. lra.
  - cbn [List.length fold_left].
    destruct (Hqs x (or_introl eq_refl)) as [Hx1 Hx2].
    assert (IH' := IH (acc + x) (n + 1)
                      (fun y Hy => Hqs y (or_intror Hy))).
    rewrite count_Q_succ.
    assert (Hstep : lo * (n + 1) <= acc + x <= hi * (n + 1)) by lra.
    specialize (IH' Hstep).
    destruct IH' as [H1 H2]. split.
    + eapply Qle_trans; [ | exact H1 ]. apply Qle_lteq. right. ring.
    + eapply Qle_trans; [ exact H2 | ]. apply Qle_lteq. right. ring.
Qed.

(** The mean of a non-empty column without gaps lies within any bounds of
    its values. *)
Lemma mean_bounds (l : list (option Q)) (lo hi : Q) :
  l <> [] ->
  (forall x, In x l -> exists q, x = Some q /\ lo <= q <= hi) ->
  exists m, pd.mean l = Some m /\ lo <= m <= hi.
Proof.
  intros Hne Hl.
  assert (Hp : forall q, In q (pd.present l) -> lo <= q <= hi).
  { intros q Hq. clear Hne.
    induction l as [ | x l IH ]; simpl in Hq; [ destruct Hq | ].
    destruct (Hl x (or_introl eq_refl)) as (q' & -> & Hq').
    destruct Hq as [ <- | Hq ]; [ exact Hq' | ].
    apply IH; [ | exact Hq ]. intros y Hy. apply Hl. right; exact Hy. }
  unfold pd.mean.
  destruct l as [ | x l ]; [ contradiction Hne; reflexivity | ].
  destruct (Hl x (or_introl eq_refl)) as (q & -> & Hq).
  cbn [pd.present] in *.
  eexists. split; [ reflexivity | ].
  apply Qred_between.
  assert (Hsum := fold_sum_bounds lo hi (pd.present l) q 1
                    (fun y Hy => Hp y (or_intror Hy))).
  assert (H1 : lo * 1 <= q <= hi * 1) by lra.
  specialize (Hsum H1).
  cbn [List.length].
  pose proof (count_Q_nonneg (List.length (pd.present l))) as Hn.
  pose proof (count_Q_succ (List.length (pd.present l))) as Hs.
  assert (Hpos : 0 < count_Q (S (List.length (pd.present l)))) by lra.
  destruct Hsum as [Hs1 Hs2]. split.
  - apply Qle_shift_div_l; [ exact Hpos | ].
    eapply Qle_trans; [ | exact Hs1 ]. rewrite Hs. apply Qle_lteq. right. ring.
  - apply Qle_shift_div_r; [ exact Hpos | ].
    eapply Qle_trans; [ exact Hs2 | ]. rewrite Hs. apply Qle_lteq. right. ring.
Qed.

Lemma filter_length_le (A : Type) (f : A -> bool) (l : list A) :
  (List.length (filter f l) <= List.length l)%nat.
Proof.
  induction l as [ | x l IH ]; simpl; [ lia | ].
  destruct (f x); simpl; lia.
Qed.



Local Abbreviation add_key :=
  (fun (ks : list cell) (k : cell) => if pd.isna k then ks else insert_key k ks).

Lemma insert_key_not_nil (k : cell) (ks : list cell) : insert_key k ks <> [].
Proof.
  destruct ks as [ | k' ks ]; simpl; [ discriminate | ].
  destruct (cell_eqb k k'); [ discriminate | ].
  destruct (cell_leb k k'); discriminate.
Qed.

Lemma insert_key_In (x k : cell) (ks : list cell) :
  In x (insert_key k ks) -> x = k \/ In x ks.
Proof.
  induction ks as [ | k' ks IH ]; simpl.
  - intros [ <- | [] ]. left; reflexivity.
  - destruct (cell_eqb k k'); [ intros H; right; exact H | ].
    destruct (cell_leb k k'); simpl.
    + intros [ <- | H ]; [ left; reflexivity | right; exact H ].
    + intros [ <- | H ]; [ right; left; reflexivity | ].
      destruct (IH H) as [ -> | H' ];
        [ left; reflexivity | right; right; exact H' ].
Qed.

Lemma insert_key_length (k : cell) (ks : list cell) :
  (List.length (insert_key k ks) <= S (List.length ks))%nat.
Proof.
  induction ks as [ | k' ks IH ]; simpl; [ lia | ].
  destruct (cell_eqb k k'); simpl; [ lia | ].
  destruct (cell_leb k k'); simpl; lia.
Qed.

Lemma fold_keys_nil (col : list cell) :
  forall acc, fold_left add_key col acc = [] <->
              acc = [] /\ Forall (fun c => c = NA) col.
Proof.
  induction col as [ | k col IH ]; intros acc; simpl.
  - split; [ intros ->; split; [ reflexivity | constructor ] | intros [H _]; exact H ].
  - rewrite IH. destruct k as [ | q | s ]; simpl.
    + split; intros (Hacc & Hall); (split; [ exact Hacc | ]).
      * constructor; [ reflexivity | exact Hall ].
      * inversion Hall; assumption.
    + split; [ intros (H & _); exfalso; exact (insert_key_not_nil _ _ H) | ].
      intros (_ & Hall). inversion Hall; discriminate.
    + split; [ intros (H & _); exfalso; exact (insert_key_not_nil _ _ H) | ].
      intros (_ & Hall). inversion Hall; discriminate.
Qed.

Lemma fold_keys_In (x : cell) (col : list cell) :
  forall acc, In x (fold_left add_key col acc) ->
              In x acc \/ (In x col /\ x <> NA).
Proof.
  induction col as [ | k col IH ]; intros acc; simpl; [ intros H; left; exact H | ].
  intros H. apply IH in H as [ H | (H & Hx) ];
    [ | right; split; [ right; exact H | exact Hx ] ].
  destruct k as [ | q | s ]; simpl in H; [ left; exact H | | ];
    (apply insert_key_In in H as [ -> | H ];
     [ right; split; [ left; reflexivity | discriminate ] | left; exact H ]).
Qed.

Lemma fold_keys_length (col : list cell) :
  forall acc, (List.length (fold_left add_key col acc)
               <= List.length acc + List.length col)%nat.
Proof.
  induction col as [ | k col IH ]; intros acc; simpl; [ lia | ].
  eapply Nat.le_trans; [ apply IH | ].
  destruct (pd.isna k); [ lia | ].
  pose proof (insert_key_length k acc). lia.
Qed.

Lemma fold_keys_constant (g : string) (col : list cell) :
  Forall (fun c => c = Str g) col ->
  fold_left add_key col [Str g] = [Str g].
Proof.
  induction 1 as [ | k col -> _ IH ]; simpl; [ reflexivity | ].
  rewrite String.eqb_refl. exact IH.
Qed.

Lemma group_keys_constant (g : string) (col : list cell) :
  col <> [] -> Forall (fun c => c = Str g) col -> group_keys col = [Str g].
Proof.
  intros Hne Hcol. unfold group_keys.
  destruct Hcol as [ | k col -> Hcol ]; [ contradiction Hne; reflexivity | ].
  simpl. apply fold_keys_constant, Hcol.
Qed.

Lemma cell_eqb_refl (k : cell) : k <> NA -> cell_eqb k k = true.
Proof.
  destruct k as [ | q | s ]; simpl; intros Hk.
  - contradiction Hk; reflexivity.
  - apply Qeq_bool_iff. reflexivity.
  - apply String.eqb_refl.
Qed.

Lemma idx_best_Raise_iff (better : Q -> Q -> bool) (s : list (cell * option Q))
      (e : exn) :
  idx_best better s = Raise e <-> e = ValueError /\ s = [].
Proof.
  unfold idx_best. destruct s as [ | p s ].
  - split; [ intros H; injection H as <-; split; reflexivity
           | intros (-> & _); reflexivity ].
  - destruct (arg_best better (p :: s) None) as [ (k & v) | ];
      (split; [ discriminate | intros (_ & H); discriminate H ]).
Qed.

Lemma category_means_nil_iff (view : list Enriched.row) :
  category_means view = [] <->
  Forall (fun r => Enriched.app_category r = NA) view.
Proof.
  unfold category_means, group_keys. split.
  - intros H. apply map_eq_nil in H.
    apply fold_keys_nil in H as (_ & H). rewrite Forall_map in H. exact H.
  - intros H.
    assert (Hk : fold_left add_key (map Enriched.app_category view) [] = []).
    { apply fold_keys_nil. split; [ reflexivity | ].
      rewrite Forall_map. exact H. }
    rewrite Hk. reflexivity.
Qed.

(** X19: the insight computation raises exactly when the view is not empty
    and none of its rows has a category: there is then no group, and
    taking the best category raises ValueError.  No other error occurs. *)
Theorem main_Raise_iff (df : list Enriched.row) (c : criteria) (e : exn) :
  main df c = Raise e <->
  e = ValueError /\
  apply_criteria df c <> [] /\
  Forall (fun r => Enriched.app_category r = NA) (apply_criteria df c).
Proof.
  unfold main.
  destruct (apply_criteria df c) as [ | r view ] eqn:Hview.
  - split; [ discriminate | intros (_ & H & _); contradiction H; reflexivity ].
  - rewrite <- category_means_nil_iff.
    set (cm := category_means (r :: view)).
    destruct (idxmax cm) as [ best | e1 ] eqn:Hmax; simpl.
    + assert (Hcm : cm <> []).
      { intros Hnil. rewrite Hnil in Hmax. discriminate Hmax. }
      destruct (idxmin cm) as [ worst | e2 ] eqn:Hmin; simpl.
      * split; [ discriminate | intros (_ & _ & H); contradiction (Hcm H) ].
      * apply idx_best_Raise_iff in Hmin as (_ & H). contradiction (Hcm H).
    + apply idx_best_Raise_iff in Hmax as (-> & Hnil).
      split.
      * intros H; injection H as <-.
        split; [ reflexivity | split; [ discriminate | exact Hnil ] ].
      * intros (-> & _). reflexivity.
Qed.

Lemma view_rating_present (df : list Enriched.row) (c : criteria) :
  forall x, In x (map Enriched.rating (apply_criteria df c)) ->
            exists q, x = Some q /\
                      fst (rating_range c) <= q <= snd (rating_range c).
Proof.
  intros x Hx. apply in_map_iff in Hx as (r & <- & Hr).
  apply in_apply_criteria in Hr as (_ & _ & _ & (q & Hq & Hb) & _).
  exists q. split; assumption.
Qed.

Lemma view_category_selected (df : list Enriched.row) (c : criteria) :
  category c <> "All"%string ->
  Forall (fun r => Enriched.app_category r = Str (category c))
         (apply_criteria df c).
Proof.
  intros Hsel. apply Forall_forall. intros r Hr.
  apply in_apply_criteria in Hr as (_ & _ & [ H | H ] & _);
    [ contradiction (Hsel H) | exact H ].
Qed.

Lemma view_app_selected (df : list Enriched.row) (c : criteria) :
  app c <> "All"%string ->
  Forall (fun r => Enriched.app_name r = Str (app c)) (apply_criteria df c).
Proof.
  intros Hsel. apply Forall_forall. intros r Hr.
  apply in_apply_criteria in Hr as (_ & [ H | H ] & _);
    [ contradiction (Hsel H) | exact H ].
Qed.

(** X20: with a category selected and a view that is not empty, the
    dashboard is shown and both the best and the worst category are the
    selected one. *)
Theorem selected_category_is_best_and_worst (df : list Enriched.row)
        (c : criteria) :
  category c <> "All"%string ->
  apply_criteria df c <> [] ->
  exists i, main df c = Ok (Dashboard i) /\
            best_category i = Str (category c) /\
            worst_category i = Str (category c).
Proof.
  intros Hsel Hne.
  pose proof (view_category_selected df c Hsel) as Hcat.
  pose proof (view_rating_present df c) as Hrat.
  unfold main.
  destruct (apply_criteria df c) as [ | r view ] eqn:Hview;
    [ contradiction Hne; reflexivity | ].
  assert (Hkeys : group_keys (map Enriched.app_category (r :: view))
                  = [Str (category c)]).
  { apply group_keys_constant; [ discriminate | ].
    rewrite Forall_map. exact Hcat. }
  assert (Hall : filter (fun r0 => cell_eqb (Enriched.app_category r0)
                                            (Str (category c))) (r :: view)
                 = r :: view).
  { apply filter_all. eapply Forall_impl; [ | exact Hcat ].
    intros r0 ->. apply String.eqb_refl. }
  destruct (mean_bounds (map Enriched.rating (r :: view))
                        (fst (rating_range c)) (snd (rating_range c)))
    as (m & Hm & _); [ discriminate | exact Hrat | ].
  assert (Hcm : category_means (r :: view) = [(Str (category c), Some m)]).
  { unfold category_means. rewrite Hkeys. cbn [map]. rewrite Hall, Hm.
    reflexivity. }
  rewrite Hcm. cbn. eexists. split; [ reflexivity | split; reflexivity ].
Qed.

Lemma selected_category_is_best_and_worst_witness :
  exists i,
    main (Tables.enriched Tables.three_reviews)
         (set_control (ByCategory "Travel") (unrestricted []))
    = Ok (Dashboard i) /\
    best_category i = Str "Travel" /\ worst_category i = Str "Travel".
Proof.
  apply (selected_category_is_best_and_worst
           (Tables.enriched Tables.three_reviews)
           (set_control (ByCategory "Travel") (unrestricted []))).
  - discriminate.
  - vm_compute. discriminate.
Defined.

(** X21: with an app selected and a view that is not empty, the Unique
    Apps figure of the key metrics is 1. *)
Theorem selected_app_is_only_app (df : list Enriched.row) (c : criteria) :
  app c <> "All"%string ->
  apply_criteria df c <> [] ->
  metric_unique_apps (key_metrics_of (apply_criteria df c)) = 1%nat.
Proof.
  intros Hsel Hne.
  pose proof (view_app_selected df c Hsel) as Happ.
  unfold key_metrics_of, nunique; cbn [metric_unique_apps].
  rewrite (group_keys_constant (app c)); [ reflexivity | | ].
  - intros Hnil. apply map_eq_nil in Hnil. exact (Hne Hnil).
  - rewrite Forall_map. exact Happ.
Qed.

Lemma selected_app_is_only_app_witness :
  metric_unique_apps
    (key_metrics_of
       (apply_criteria (Tables.enriched Tables.three_reviews)
                       (set_control (ByApp "Maps") (unrestricted []))))
  = 1%nat.
Proof.
  apply selected_app_is_only_app.
  - discriminate.
  - vm_compute. discriminate.
Defined.

(** X22: the Unique Apps and the Languages figures never exceed the Total
    Reviews figure, and the Total Reviews figure never exceeds the size of
    the table. *)
Theorem key_metrics_counts (df : list Enriched.row) (c : criteria) :
  let m := key_metrics_of (apply_criteria df c) in
  (metric_unique_apps m <= metric_total_reviews m)%nat /\
  (metric_languages m <= metric_total_reviews m)%nat /\
  (metric_total_reviews m <= List.length df)%nat.
Proof.
  unfold key_metrics_of, nunique, group_keys; simpl.
  repeat split.
  - eapply Nat.le_trans; [ apply fold_keys_length | ].
    simpl. rewrite length_map. apply Nat.le_refl.
  - eapply Nat.le_trans; [ apply fold_keys_length | ].
    simpl. rewrite length_map. apply Nat.le_refl.
  - rewrite apply_criteria_filter. apply filter_length_le.
Qed.

(** The entry [arg_best] returns is as good as every present value passed,
    for a preference that is the strict part of a total, transitive order. *)
Lemma arg_best_spec (R : Q -> Q -> bool) :
  (forall a b, R a b = false -> R b a = true) ->
  (forall a b d, R a b = true -> R b d = true -> R a d = true) ->
  forall s best k v,
    arg_best (fun x b => negb (R x b)) s best = Some (k, v) ->
    (In (k, Some v) s \/ best = Some (k, v)) /\
    (forall k' v', In (k', Some v') s -> R v' v = true) /\
    (forall kb vb, best = Some (kb, vb) -> R vb v = true).
Proof.
  intros Htotal Htrans.
  assert (Hrefl : forall a, R a a = true).
  { intros a. destruct (R a a) eqn:Ha; [ reflexivity | ].
    pose proof (Htotal _ _ Ha) as Ha'. rewrite Ha in Ha'. exact Ha'. }
  induction s as [ | (k0 & [ v0 | ]) s IH ]; intros best k v; simpl.
  - intros ->. split; [ right; reflexivity | split ].
    + intros k' v' [].
    + intros kb vb H; injection H as <- <-. apply Hrefl.
  - destruct best as [ (kb & vb) | ].
    + destruct (R v0 vb) eqn:Hcmp; simpl; intros H;
        apply IH in H as (Hin & Hall & Hbest).
      * split; [ destruct Hin as [ Hin | Hin ];
                 [ left; right; exact Hin | right; exact Hin ] | ].
        split.
        -- intros k' v' [ Heq | Hin' ]; [ | apply (Hall _ _ Hin') ].
           injection Heq as <- <-.
           apply Htrans with vb; [ exact Hcmp | apply (Hbest kb vb eq_refl) ].
        -- exact Hbest.
      * split; [ destruct Hin as [ Hin | Hin ];
                 [ left; right; exact Hin
                 | left; left; injection Hin as <- <-; reflexivity ] | ].
        split.
        -- intros k' v' [ Heq | Hin' ]; [ | apply (Hall _ _ Hin') ].
           injection Heq as <- <-. apply (Hbest k0 v0 eq_refl).
        -- intros kb' vb' Heq. injection Heq as <- <-.
           apply Htrans with v0;
             [ apply Htotal, Hcmp | apply (Hbest k0 v0 eq_refl) ].
    + intros H. apply IH in H as (Hin & Hall & Hbest).
      split; [ destruct Hin as [ Hin | Hin ];
               [ left; right; exact Hin
               | left; left; injection Hin as <- <-; reflexivity ] | ].
      split.
      * intros k' v' [ Heq | Hin' ]; [ | apply (Hall _ _ Hin') ].
        injection Heq as <- <-. apply (Hbest k0 v0 eq_refl).
      * discriminate.
  - intros H. apply IH in H as (Hin & Hall & Hbest).
    split; [ destruct Hin as [ Hin | Hin ];
             [ left; right; exact Hin | right; exact Hin ] | ].
    split; [ | exact Hbest ].
    intros k' v' [ Heq | Hin' ]; [ discriminate Heq | apply (Hall _ _ Hin') ].
Qed.

Lemma Qle_bool_total (a b : Q) : Qle_bool a b = false -> Qle_bool b a = true.
Proof.
  rewrite Qle_bool_false_iff, Qle_bool_iff. apply Qlt_le_weak.
Qed.

Lemma Qle_bool_trans (a b d : Q) :
  Qle_bool a b = true -> Qle_bool b d = true -> Qle_bool a d = true.
Proof. rewrite !Qle_bool_iff. apply Qle_trans. Qed.

(** Every group of a view has a mean. *)
Lemma category_means_present (df : list Enriched.row) (c : criteria)
      (k : cell) (x : option Q) :
  In (k, x) (category_means (apply_criteria df c)) -> exists m, x = Some m.
Proof.
  unfold category_means, group_keys. intros H.
  apply in_map_iff in H as (k' & Heq & Hk). injection Heq as -> <-.
  apply fold_keys_In in Hk as [ [] | (Hk & Hna) ].
  apply in_map_iff in Hk as (r & Hr & Hin).
  destruct (mean_bounds
              (map Enriched.rating
                   (filter (fun r0 => cell_eqb (Enriched.app_category r0) k)
                           (apply_criteria df c)))
              (fst (rating_range c)) (snd (rating_range c)))
    as (m & Hm & _).
  - intros Hnil. apply map_eq_nil in Hnil.
    assert (Hrin : In r (filter (fun r0 => cell_eqb (Enriched.app_category r0) k)
                                (apply_criteria df c))).
    { apply filter_In. split; [ exact Hin | ].
      rewrite Hr. apply cell_eqb_refl, Hna. }
    rewrite Hnil in Hrin. exact Hrin.
  - intros y Hy. apply (view_rating_present df c).
    apply in_map_iff in Hy as (r0 & <- & Hr0).
    apply filter_In in Hr0 as (Hr0 & _). apply in_map, Hr0.
  - exists m. exact Hm.
Qed.

(** X23: when the dashboard is shown, the best category is a category of
    the view whose mean rating is at least the mean rating of every
    category of the view, and the worst category one whose mean rating is
    at most that of every category. *)
Theorem best_and_worst_category_extremal (df : list Enriched.row)
        (c : criteria) (i : insights) :
  main df c = Ok (Dashboard i) ->
  let means := category_means (apply_criteria df c) in
  (exists b, In (best_category i, Some b) means /\
             forall k m, In (k, Some m) means -> m <= b) /\
  (exists w, In (worst_category i, Some w) means /\
             forall k m, In (k, Some m) means -> w <= m).
Proof.
  intros H.
  pose proof (category_means_present df c) as Hpresent.
  unfold main in H.
  destruct (apply_criteria df c) as [ | r view ] eqn:Hview;
    [ discriminate H | ].
  set (means := category_means (r :: view)) in *.
  apply bind_Ok_inv in H as (best & Hmax & H).
  apply bind_Ok_inv in H as (worst & Hmin & H).
  injection H as <-. cbn [best_category worst_category].
  unfold idxmax, idxmin, idx_best in Hmax, Hmin.
  destruct means as [ | (k0 & x0) means' ] eqn:Hmeans; [ discriminate Hmax | ].
  destruct (Hpresent k0 x0 (or_introl eq_refl)) as (m0 & ->).
  split.
  - destruct (arg_best (fun v b => negb (Qle_bool v b))
                       ((k0, Some m0) :: means') None)
      as [ (k & v) | ] eqn:Hbest; [ | simpl in Hbest ].
    + injection Hmax as <-.
      apply (arg_best_spec Qle_bool Qle_bool_total Qle_bool_trans)
        in Hbest as ([ Hin | Hin ] & Hall & _); [ | discriminate Hin ].
      exists v. split; [ exact Hin | ].
      intros k' m' Hk'. apply Qle_bool_iff, (Hall k' m' Hk').
    + exfalso. clear - Hbest.
      assert (Hsome : forall s b,
                 arg_best (fun v b0 => negb (Qle_bool v b0)) s (Some b) <> None).
      { induction s as [ | (k1 & [ v1 | ]) s IH ]; intros [kb vb]; simpl;
          [ discriminate | | apply IH ].
        destruct (negb (Qle_bool v1 vb)); apply IH. }
      exact (Hsome _ _ Hbest).
  - destruct (arg_best (fun v b => negb (Qle_bool b v))
                       ((k0, Some m0) :: means') None)
      as [ (k & v) | ] eqn:Hbest; [ | simpl in Hbest ].
    + injection Hmin as <-.
      apply (arg_best_spec (fun a b => Qle_bool b a)) in Hbest
        as ([ Hin | Hin ] & Hall & _); [ | discriminate Hin | | ].
      * exists v. split; [ exact Hin | ].
        intros k' m' Hk'. apply Qle_bool_iff, (Hall k' m' Hk').
      * intros a b. apply Qle_bool_total.
      * intros a b d Hab Hbd. apply Qle_bool_trans with b; assumption.
    + exfalso. clear - Hbest.
      assert (Hsome : forall s b,
                 arg_best (fun v b0 => negb (Qle_bool b0 v)) s (Some b) <> None).
      { induction s as [ | (k1 & [ v1 | ]) s IH ]; intros [kb vb]; simpl;
          [ discriminate | | apply IH ].
        destruct (negb (Qle_bool vb v1)); apply IH. }
      exact (Hsome _ _ Hbest).
Qed.

Lemma best_and_worst_category_extremal_witness :
  exists i,
    main (Tables.enriched Tables.three_reviews) (unrestricted [])
    = Ok (Dashboard i) /\
    exists b, In (best_category i, Some b)
                 (category_means
                    (apply_criteria (Tables.enriched Tables.three_reviews)
                                    (unrestricted []))) /\
              forall k m,
                In (k, Some m)
                   (category_means
                      (apply_criteria (Tables.enriched Tables.three_reviews)
                                      (unrestricted []))) -> m <= b.
Proof.
  eexists. split; [ reflexivity | ].
  apply (best_and_worst_category_extremal
           (Tables.enriched Tables.three_reviews) (unrestricted [])).
  reflexivity.
Defined.

(** ** Across the stages *)

(** X24: the cleaner passes the app name, the category, the review text and
    the language of every row with text through unchanged and in order, and
    changes no country or gender that is present. *)
Theorem clean_data_passes_columns_through to_float to_timestamp float_repr
        (df : list Raw.row) (out : list Clean.row) :
  clean_data to_float to_timestamp float_repr df = Ok out ->
  map Clean.app_name out = map Raw.app_name (dropna_review_text df) /\
  map Clean.app_category out = map Raw.app_category (dropna_review_text df) /\
  map Clean.review_text out = map Raw.review_text (dropna_review_text df) /\
  map Clean.review_language out
  = map Raw.review_language (dropna_review_text df) /\
  Forall2 (fun r b =>
             (Raw.user_country r <> NA ->
              Clean.user_country b = Raw.user_country r) /\
             (Raw.user_gender r <> NA ->
              Clean.user_gender b = Raw.user_gender r))
          (dropna_review_text df) out.
Proof.
  intros H. apply clean_data_Ok_inv in H as (rm & am & _ & _ & H).
  assert (Hrow : forall a b,
             clean_row to_float to_timestamp float_repr rm am
                       (map Raw.review_date (dropna_review_text df)) a = Ok b ->
             Clean.app_name b = Raw.app_name a /\
             Clean.app_category b = Raw.app_category a /\
             Clean.review_text b = Raw.review_text a /\
             Clean.review_language b = Raw.review_language a /\
             Clean.user_country b = pd.fillna_str "Unknown" (Raw.user_country a) /\
             Clean.user_gender b = pd.fillna_str "Unknown" (Raw.user_gender a)).
  { intros a b Hab. unfold clean_row in Hab.
    apply bind_Ok_inv in Hab as (age & _ & Hab).
    injection Hab as <-. simpl. repeat split. }
  repeat split;
    try (eapply Forall2_map_eq; [ | exact H ];
         intros a b Hab; apply Hrow in Hab; apply Hab).
  eapply Forall2_impl; [ | exact H ].
  intros a b Hab. apply Hrow in Hab as (_ & _ & _ & _ & -> & ->).
  split; intros Hna.
  - destruct (Raw.user_country a); [ contradiction Hna | | ]; reflexivity.
  - destruct (Raw.user_gender a); [ contradiction Hna | | ]; reflexivity.
Qed.

Lemma clean_data_passes_columns_through_witness :
  exists out,
    Tables.clean_data Tables.three_reviews = Ok out /\
    map Clean.app_name out = [Str "Maps"; Str "Chess"; Str "Maps"].
Proof.
  eexists. split; [ reflexivity | ].
  apply (clean_data_passes_columns_through
           Sample.to_float Sample.to_timestamp Sample.float_repr
           Tables.three_reviews).
  reflexivity.
Defined.

(** X25: in a view of an enriched table taken with a rating range within
    0 and 5, as every range of the slider is, every row has one of the five
    rating categories. *)
Theorem view_rows_have_rating_category (cleaned : list Clean.row)
        (c : criteria) (r : Enriched.row) :
  0 <= fst (rating_range c) ->
  snd (rating_range c) <= 5 ->
  In r (apply_criteria (add_custom_features cleaned) c) ->
  exists l, In l rating_labels /\ Enriched.rating_category r = Some l.
Proof.
  intros Hlo Hhi Hr.
  apply in_apply_criteria in Hr as (Hin & _ & _ & (q & Hq & Hq1 & Hq2) & _).
  unfold add_custom_features in Hin.
  apply in_map_iff in Hin as (c0 & <- & _).
  unfold Enriched.rating, enrich_row in *.
  cbn [Enriched.base Enriched.rating_category] in *.
  rewrite Hq, cut_rating by (split; lra).
  eexists; split; [ | reflexivity ].
  unfold rating_labels.
  destruct (Qle_bool q 1.9); [ simpl; tauto | ].
  destruct (Qle_bool q 2.9); [ simpl; tauto | ].
  destruct (Qle_bool q 3.9); [ simpl; tauto | ].
  destruct (Qle_bool q 4.4); simpl; tauto.
Qed.

Lemma view_rows_have_rating_category_witness :
  exists l, In l rating_labels /\
            Enriched.rating_category (enrich_row Tables.good_review) = Some l.
Proof.
  apply (view_rows_have_rating_category
           [Tables.good_review; Tables.undated_review] (unrestricted [])).
  - vm_compute; discriminate.
  - vm_compute; discriminate.
  - vm_compute. left; reflexivity.
Defined.
